(** * Ticket booking: the reservation engine of [bookingService.ts]

    A shallow embedding of the booking backend:
    - the two tables and their constraints, from [db/migrate.ts];
    - the PostgreSQL connection as seen by one [client]: a working state,
      the snapshot taken by [BEGIN], and the queries the service sends;
    - [getAvailableTickets], [createBooking], [simulatePayment],
      [getTicketAvailability] and [getAllAvailableTickets], from
      [services/bookingService.ts];
    - the request validation and the POST handler of [routes/bookingRoutes.ts],
      behind the body parser and the error handler of [index.ts].

    Conventions.
    - A JS [number] that holds an integer is a [Z]; a [DECIMAL(10,2)] price is
      a [Z] counting cents ([dollars 100] is [100.00]).
    - A JavaScript string is held as the bytes of its UTF-8 encoding, the
      form in which it reaches the database and comes back from it.
    - Everything one attempt draws from outside ([Date.now()],
      [Math.random()], the database clock, the rows other transactions hold
      locked) is an explicit input, the record [Env].
    - Every [client.query], the drawing of the booking reference and the call
      of [simulatePayment] are recorded, in program order, in the trace of
      the client. *)

From Stdlib Require Import ZArith QArith Lia.
From stdpp Require Import base decidable list sorting strings pretty.

Local Open Scope string_scope.
Local Open Scope list_scope.
Local Open Scope Z_scope.

(** ** Data model ([types.ts], [db/migrate.ts]) *)

(** [tier VARCHAR(50) CHECK (tier IN ('VIP', 'Front Row', 'GA'))]. *)
Inductive TicketTier := VIP | FrontRow | GA.

Global Instance TicketTier_eq_dec : EqDecision TicketTier.
Proof. solve_decision. Defined.

Definition tier_name (t : TicketTier) : string :=
  match t with VIP => "VIP" | FrontRow => "Front Row" | GA => "GA" end.

(** Position of the tier's name in the order of [ORDER BY tier]:
    "Front Row" < "GA" < "VIP". *)
Definition tier_rank (t : TicketTier) : Z :=
  match t with FrontRow => 0 | GA => 1 | VIP => 2 end.

Definition dollars (n : Z) : Z := 100 * n.

Module Ticket.

Record t := mk {
  id : Z;
  tier : TicketTier;
  price : Z;
  available : bool;
  created_at : Z
}.

(** The row after [SET available = v]. *)
Definition set_available (v : bool) (x : t) : t :=
  mk (id x) (tier x) (price x) v (created_at x).

End Ticket.

Inductive PaymentStatus := pending | success | failed.

Global Instance PaymentStatus_eq_dec : EqDecision PaymentStatus.
Proof. solve_decision. Defined.

Module Booking.

Record t := mk {
  id : Z;
  ticket_id : Z;
  user_id : string;
  quantity : Z;
  total_price : Z;
  payment_status : PaymentStatus;
  booking_reference : option string;
  created_at : Z
}.

(** The row after [SET payment_status = s]. *)
Definition set_payment_status (s : PaymentStatus) (x : t) : t :=
  mk (id x) (ticket_id x) (user_id x) (quantity x) (total_price x) s
     (booking_reference x) (created_at x).

End Booking.

Record BookingRequest := mkRequest {
  req_tier : TicketTier;
  req_quantity : Z;
  req_userId : string
}.

(** The two tables, and the sequences behind [bookings.id SERIAL] and
    [tickets.id SERIAL]. *)
Record Database := mkDatabase {
  tickets : list Ticket.t;
  bookings : list Booking.t;
  bookings_id_seq : Z;
  tickets_id_seq : Z
}.

(** ** Errors and events *)

(** What the service can throw: an error raised by [client.query], with its
    SQLSTATE in [error.code], or one of the three [new Error(...)] of
    [createBooking]. *)
Inductive Error :=
  | DatabaseError (code : string)
  | InsufficientTickets (requested found : Z)
  | AlreadyBooked
  | PaymentFailed.

Definition error_code (e : Error) : option string :=
  match e with DatabaseError c => Some c | _ => None end.

Definition unique_violation : string := "23505".
Definition foreign_key_violation : string := "23503".
Definition string_data_right_truncation : string := "22001".
Definition character_not_in_repertoire : string := "22021".
Definition invalid_row_count_in_limit_clause : string := "2201W".

Inductive Query :=
  | SetTransactionIsolationLevelSerializable
  | Begin
  | Commit
  | Rollback
  | SelectTicketsForUpdateSkipLocked (tier : TicketTier) (limit : Z)
  | InsertBooking (ticket_id : Z) (user_id : string) (quantity total_price : Z)
                  (reference : string)
  | UpdateTicketUnavailable (ticket_id : Z)
  | UpdateBookingsSuccess (reference : string)
  | SelectAvailabilityByTier
  | SelectAllAvailableTickets.

Inductive Event :=
  | EvConnect
  | EvQuery (q : Query)
  | EvReference (reference : string)
  | EvSimulatePayment (paid : bool)
  | EvRelease.

(** The inputs of one attempt that do not come from the request. *)
Record Env := mkEnv {
  locked : list Z;          (* ids of the ticket rows locked by other in-flight transactions *)
  date_now : N;             (* Date.now() *)
  random_suffix : string;   (* Math.random().toString(36).substring(2, 11) *)
  payment_draw : Q;         (* the Math.random() of simulatePayment *)
  db_clock : Z              (* CURRENT_TIMESTAMP of the transaction *)
}.

(** ** The connection *)

Record Client := mkClient {
  db : Database;                 (* what the client's statements see and write *)
  snapshot : option Database;    (* the state at BEGIN, while a transaction is open *)
  trace : list Event
}.

(** A rollback restores the tables; a sequence is never rolled back. *)
Definition restore (s cur : Database) : Database :=
  mkDatabase (tickets s) (bookings s)
             (bookings_id_seq cur) (tickets_id_seq cur).

(** The committed state: what remains if the connection were dropped now. *)
Definition durable (c : Client) : Database :=
  match snapshot c with
  | Some s => restore s (db c)
  | None => db c
  end.

Inductive Completion (A : Type) :=
  | Return (a : A)
  | Throw (e : Error).
Arguments Return {A} a.
Arguments Throw {A} e.

(** Computations over a client that return or throw. *)
Definition M (A : Type) : Type := Client → Completion A * Client.

Definition ret {A} (a : A) : M A := λ c, (Return a, c).
Definition throw {A} (e : Error) : M A := λ c, (Throw e, c).
Definition bind {A B} (m : M A) (k : A → M B) : M B :=
  λ c, match m c with
       | (Return a, c') => k a c'
       | (Throw e, c') => (Throw e, c')
       end.
(** [try { m } catch (error) { h error }] *)
Definition try_catch {A} (m : M A) (h : Error → M A) : M A :=
  λ c, match m c with
       | (Return a, c') => (Return a, c')
       | (Throw e, c') => h e c'
       end.
(** [try { m } finally { f }], for an [f] that cannot throw. *)
Definition try_finally {A} (m : M A) (f : Client → Client) : M A :=
  λ c, let '(r, c') := m c in (r, f c').

Notation "x <- m ;; k" := (bind m (λ x, k))
  (at level 100, m at next level, right associativity).
Notation "m ;;; k" := (bind m (λ _, k))
  (at level 100, right associativity).

Definition record (e : Event) (c : Client) : Client :=
  mkClient (db c) (snapshot c) (trace c ++ [e]).

Definition log (e : Event) : M unit := λ c, (Return tt, record e c).

Definition set_db (d : Database) (c : Client) : Client :=
  mkClient d (snapshot c) (trace c).

Definition pool_connect (d : Database) : Client :=
  mkClient d None [EvConnect].

Definition client_release (c : Client) : Client := record EvRelease c.

(** *** Transaction control *)

(** Sent outside a transaction block, as [createBooking] does, [SET
    TRANSACTION] changes nothing. *)
Definition query_set_isolation : M unit :=
  log (EvQuery SetTransactionIsolationLevelSerializable).

Definition query_begin : M unit := λ c,
  let c := record (EvQuery Begin) c in
  (Return tt,
   match snapshot c with
   | None => mkClient (db c) (Some (db c)) (trace c)
   | Some _ => c
   end).

Definition query_commit : M unit := λ c,
  let c := record (EvQuery Commit) c in
  (Return tt, mkClient (db c) None (trace c)).

Definition query_rollback : M unit := λ c,
  let c := record (EvQuery Rollback) c in
  (Return tt, mkClient (durable c) None (trace c)).

(** *** The statements of the service *)

(** [WHERE tier = $1 AND available = true] *)
Definition matches (tier : TicketTier) (x : Ticket.t) : bool :=
  bool_decide (Ticket.tier x = tier) && Ticket.available x.

Definition unlocked (held : list Z) (x : Ticket.t) : bool :=
  negb (bool_decide (Ticket.id x ∈ held)).

(** [ORDER BY id] *)
Definition by_id (x y : Ticket.t) : Prop := Ticket.id x ≤ Ticket.id y.

Global Instance by_id_dec x y : Decision (by_id x y).
Proof. unfold by_id. apply _. Defined.

(** The rows [SELECT ... FROM tickets WHERE tier = $1 AND available = true
    ORDER BY id ... FOR UPDATE SKIP LOCKED] can return: the matching rows
    are visited in the order of their ids and a row locked by another
    transaction is passed over. *)
Definition candidates (held : list Z) (tier : TicketTier) (d : Database)
    : list Ticket.t :=
  filter (λ x, unlocked held x = true)
         (merge_sort by_id (filter (λ x, matches tier x = true) (tickets d))).

(** [SELECT id, tier, price, available, created_at FROM tickets
     WHERE tier = $1 AND available = true ORDER BY id LIMIT $2
     FOR UPDATE SKIP LOCKED]: the scan stops after [limit] rows. A negative
    [LIMIT] is an error. *)
Definition select_for_update_skip_locked
    (held : list Z) (tier : TicketTier) (limit : Z) (d : Database)
    : Completion (list Ticket.t) :=
  if limit <? 0 then Throw (DatabaseError invalid_row_count_in_limit_clause)
  else Return (take (Z.to_nat limit) (candidates held tier d)).

Definition query_select_for_update_skip_locked
    (held : list Z) (tier : TicketTier) (limit : Z) : M (list Ticket.t) := λ c,
  let c := record (EvQuery (SelectTicketsForUpdateSkipLocked tier limit)) c in
  (select_for_update_skip_locked held tier limit (db c), c).

(** The three uniqueness constraints of [bookings]: the primary key [id],
    [ticket_id INTEGER NOT NULL UNIQUE] and [booking_reference VARCHAR(255)
    UNIQUE]. *)
Definition violates_unique (row : Booking.t) (rows : list Booking.t) : bool :=
  existsb (λ b, bool_decide (Booking.id b = Booking.id row)
                || bool_decide (Booking.ticket_id b = Booking.ticket_id row)
                || match Booking.booking_reference row with
                   | Some r => bool_decide (Booking.booking_reference b = Some r)
                   | None => false
                   end) rows.

(** [ticket_id ... REFERENCES tickets(id)] *)
Definition references_ticket (row : Booking.t) (ts : list Ticket.t) : bool :=
  existsb (λ x, bool_decide (Ticket.id x = Booking.ticket_id row)) ts.

(** *** Text parameters

    A character of a text starts at every byte that is not a continuation
    byte [10xxxxxx] of the UTF-8 encoding. *)
Definition is_continuation (a : Ascii.ascii) : bool :=
  match a with Ascii.Ascii _ _ _ _ _ _ b6 b7 => b7 && negb b6 end.

(** The number of characters of a text. *)
Fixpoint char_length (s : string) : nat :=
  match s with
  | EmptyString => 0%nat
  | String a rest =>
      ((if is_continuation a then 0 else 1) + char_length rest)%nat
  end.

(** PostgreSQL stores no text with the character U+0000, the byte 0: a
    parameter that holds one is refused when it is bound. *)
Fixpoint contains_nul (s : string) : bool :=
  match s with
  | EmptyString => false
  | String a rest => Ascii.eqb a Ascii.zero || contains_nul rest
  end.

(** The first [n] characters of a text, and what comes after them. *)
Fixpoint clip (n : nat) (s : string) : string :=
  match s with
  | EmptyString => EmptyString
  | String a rest =>
      if is_continuation a then String a (clip n rest)
      else match n with
           | O => EmptyString
           | S m => String a (clip m rest)
           end
  end.

Fixpoint excess (n : nat) (s : string) : string :=
  match s with
  | EmptyString => EmptyString
  | String a rest =>
      if is_continuation a then excess n rest
      else match n with
           | O => s
           | S m => excess m rest
           end
  end.

Fixpoint all_spaces (s : string) : bool :=
  match s with
  | EmptyString => true
  | String a rest => Ascii.eqb a Ascii.Space && all_spaces rest
  end.

(** [user_id VARCHAR(255)]: a value is stored if it has at most 255
    characters, or if what it has beyond them is spaces only, which are cut
    off; any other value is refused. (The reference of [createBooking],
    "BK-", the digits of a time in milliseconds, "-" and at most nine
    characters, is always short enough for its column.) *)
Definition fits_varchar255 (s : string) : bool := all_spaces (excess 255 s).

(** The value stored for a text that fits. *)
Definition varchar255 (s : string) : string := clip 255 s.

(** [INSERT INTO bookings (ticket_id, user_id, quantity, total_price,
     booking_reference, payment_status) VALUES ($1, $2, $3, $4, $5, 'pending')
     RETURNING ...]. A user id PostgreSQL cannot store is refused before the
    statement runs. Otherwise the id comes from the sequence, which then
    advances whether or not the row is accepted. *)
Definition insert_booking
    (now ticket_id : Z) (user_id : string) (quantity total_price : Z)
    (reference : string) (d : Database) : Completion Booking.t * Database :=
  let next := bookings_id_seq d + 1 in
  let row := Booking.mk next ticket_id (varchar255 user_id) quantity total_price
                        pending (Some reference) now in
  let d' := mkDatabase (tickets d) (bookings d) next (tickets_id_seq d) in
  if contains_nul user_id then
    (Throw (DatabaseError character_not_in_repertoire), d)
  else if negb (fits_varchar255 user_id) then
    (Throw (DatabaseError string_data_right_truncation), d)
  else if violates_unique row (bookings d) then
    (Throw (DatabaseError unique_violation), d')
  else if negb (references_ticket row (tickets d)) then
    (Throw (DatabaseError foreign_key_violation), d')
  else
    (Return row,
     mkDatabase (tickets d) (bookings d ++ [row]) next (tickets_id_seq d)).

Definition query_insert_booking
    (now ticket_id : Z) (user_id : string) (quantity total_price : Z)
    (reference : string) : M Booking.t := λ c,
  let c := record (EvQuery (InsertBooking ticket_id user_id quantity total_price
                                          reference)) c in
  let '(r, d) := insert_booking now ticket_id user_id quantity total_price
                                reference (db c) in
  (r, set_db d c).

(** [UPDATE tickets SET available = false WHERE id = $1] *)
Definition update_ticket_unavailable (ticket_id : Z) (d : Database) : Database :=
  mkDatabase
    (map (λ x, if bool_decide (Ticket.id x = ticket_id)
               then Ticket.set_available false x else x) (tickets d))
    (bookings d) (bookings_id_seq d) (tickets_id_seq d).

Definition query_update_ticket_unavailable (ticket_id : Z) : M unit := λ c,
  let c := record (EvQuery (UpdateTicketUnavailable ticket_id)) c in
  (Return tt, set_db (update_ticket_unavailable ticket_id (db c)) c).

(** [UPDATE bookings SET payment_status = 'success' WHERE booking_reference = $1] *)
Definition update_bookings_success (reference : string) (d : Database) : Database :=
  mkDatabase
    (tickets d)
    (map (λ b, if bool_decide (Booking.booking_reference b = Some reference)
               then Booking.set_payment_status success b else b) (bookings d))
    (bookings_id_seq d) (tickets_id_seq d).

Definition query_update_bookings_success (reference : string) : M unit := λ c,
  let c := record (EvQuery (UpdateBookingsSuccess reference)) c in
  (Return tt, set_db (update_bookings_success reference (db c)) c).

(** ** The booking service ([services/bookingService.ts]) *)

Definition getAvailableTickets
    (env : Env) (tier : TicketTier) (quantity : Z) : M (list Ticket.t) :=
  query_select_for_update_skip_locked (locked env) tier quantity.

(** [Math.random() > 0.1]; the literal [0.1] is the double
    3602879701896397 / 2^55. *)
Definition one_tenth : Q := 3602879701896397 # 36028797018963968.

Definition simulatePayment (env : Env) : M bool := λ c,
  let paid := negb (Qle_bool (payment_draw env) one_tenth) in
  (Return paid, record (EvSimulatePayment paid) c).

(** [`BK-${Date.now()}-${Math.random().toString(36).substring(2, 11)}`] *)
Definition bookingReference (env : Env) : string :=
  "BK-" +:+ pretty (date_now env) +:+ "-" +:+ random_suffix env.

(** The body of [for (const ticket of tickets)], with its [try]/[catch];
    [acc] is the array [bookings]. *)
Definition createBooking_step
    (env : Env) (request : BookingRequest) (reference : string)
    (ticket : Ticket.t) (acc : list Booking.t) : M (list Booking.t) :=
  try_catch
    (row <- query_insert_booking (db_clock env) (Ticket.id ticket)
              (req_userId request) 1 (Ticket.price ticket) reference ;;
     query_update_ticket_unavailable (Ticket.id ticket) ;;;
     ret (acc ++ [row]))
    (λ error,
       if bool_decide (error_code error = Some unique_violation) then
         (query_rollback ;;;
          throw AlreadyBooked)
       else throw error).

Fixpoint createBooking_loop
    (env : Env) (request : BookingRequest) (reference : string)
    (ts : list Ticket.t) (acc : list Booking.t) : M (list Booking.t) :=
  match ts with
  | [] => ret acc
  | ticket :: rest =>
      acc' <- createBooking_step env request reference ticket acc ;;
      createBooking_loop env request reference rest acc'
  end.

(** The outer [try] block, first part: the transaction is opened, the
    tickets are selected and locked, and each gets its reservation row.
    ([totalPrice], which the source computes from the prices of the tickets
    before the loop, is used nowhere and is left out.) *)
Definition createBooking_claim (env : Env) (request : BookingRequest)
    : M (list Booking.t) :=
  query_set_isolation ;;;
  query_begin ;;;
  ts <- getAvailableTickets env (req_tier request) (req_quantity request) ;;
  if Z.of_nat (length ts) <? req_quantity request then
    (query_rollback ;;;
     throw (InsufficientTickets (req_quantity request) (Z.of_nat (length ts))))
  else
    let reference := bookingReference env in
    log (EvReference reference) ;;;
    createBooking_loop env request reference ts [].

(** The outer [try] block, second part: payment, then commit or rollback. *)
Definition createBooking_confirm (env : Env) (booked : list Booking.t)
    : M (list Booking.t) :=
  paymentSuccess <- simulatePayment env ;;
  if paymentSuccess then
    (query_update_bookings_success (bookingReference env) ;;;
     query_commit ;;;
     ret (map (Booking.set_payment_status success) booked))
  else
    (query_rollback ;;;
     throw PaymentFailed).

Definition createBooking_try (env : Env) (request : BookingRequest)
    : M (list Booking.t) :=
  booked <- createBooking_claim env request ;;
  createBooking_confirm env booked.

(** The outer [catch]: roll back, ignoring a failure of the rollback, and
    rethrow. *)
Definition createBooking_catch (error : Error) : M (list Booking.t) :=
  try_catch query_rollback (λ _, ret tt) ;;;
  throw error.

Definition createBooking (env : Env) (request : BookingRequest) (d : Database)
    : Completion (list Booking.t) * Client :=
  try_finally (try_catch (createBooking_try env request) createBooking_catch)
              client_release (pool_connect d).

(** *** The availability report *)

Record TierAvailability := mkTierAvailability {
  ta_available : Z;
  ta_total : Z;
  ta_price : Z
}.

(** One row of [SELECT tier, COUNT( * ) as total,
    SUM(CASE WHEN available = true THEN 1 ELSE 0 END) as available,
    MAX(price) as price FROM tickets GROUP BY tier]. *)
Record AvailabilityRow := mkAvailabilityRow {
  row_tier : TicketTier;
  row_total : Z;
  row_available : Z;
  row_price : Z
}.

Definition group_of (tier : TicketTier) (ts : list Ticket.t) : list Ticket.t :=
  filter (λ x, Ticket.tier x = tier) ts.

Definition sum_available (g : list Ticket.t) : Z :=
  foldr (λ x s, (if Ticket.available x then 1 else 0) + s) 0 g.

Definition group_row (tier : TicketTier) (ts : list Ticket.t)
    : option AvailabilityRow :=
  match group_of tier ts with
  | [] => None
  | x :: g =>
      Some (mkAvailabilityRow tier
              (Z.of_nat (length (x :: g)))
              (sum_available (x :: g))
              (foldr (λ y m, Z.max (Ticket.price y) m) (Ticket.price x) g))
  end.

(** A tier without tickets has no group, hence no row. *)
Definition select_availability_by_tier (d : Database) : list AvailabilityRow :=
  omap (λ tier, group_row tier (tickets d)) [VIP; FrontRow; GA].

(** The object [availability], filled by [availability[row.tier] = {...}]. *)
Definition assign_row (availability : TicketTier → option TierAvailability)
    (row : AvailabilityRow) : TicketTier → option TierAvailability :=
  λ tier, if bool_decide (tier = row_tier row)
          then Some (mkTierAvailability (row_available row) (row_total row)
                                        (row_price row))
          else availability tier.

Record Availability := mkAvailability {
  av_VIP : TierAvailability;
  av_FrontRow : TierAvailability;
  av_GA : TierAvailability
}.

Definition getTicketAvailability (d : Database) : Completion Availability * Client :=
  let c := record (EvQuery SelectAvailabilityByTier) (pool_connect d) in
  let availability :=
    foldl assign_row (λ _, None) (select_availability_by_tier (db c)) in
  (Return (mkAvailability
             (default (mkTierAvailability 0 0 (dollars 100)) (availability VIP))
             (default (mkTierAvailability 0 0 (dollars 50)) (availability FrontRow))
             (default (mkTierAvailability 0 0 (dollars 10)) (availability GA))),
   client_release c).

Definition report (a : Availability) (tier : TicketTier) : TierAvailability :=
  match tier with VIP => av_VIP a | FrontRow => av_FrontRow a | GA => av_GA a end.

(** [ORDER BY tier, id] *)
Definition by_tier_id (x y : Ticket.t) : Prop :=
  tier_rank (Ticket.tier x) < tier_rank (Ticket.tier y)
  ∨ (tier_rank (Ticket.tier x) = tier_rank (Ticket.tier y)
     ∧ Ticket.id x ≤ Ticket.id y).

Global Instance by_tier_id_dec x y : Decision (by_tier_id x y).
Proof. unfold by_tier_id. apply _. Defined.

Definition getAllAvailableTickets (d : Database)
    : Completion (list Ticket.t) * Client :=
  let c := record (EvQuery SelectAllAvailableTickets) (pool_connect d) in
  (Return (merge_sort by_tier_id
             (filter (λ x, Ticket.available x = true) (tickets (db c)))),
   client_release c).

(** ** The inventory loaded by [db/migrate.ts] *)

Definition tier_price (tier : TicketTier) : Z :=
  match tier with
  | VIP => dollars 100
  | FrontRow => dollars 50
  | GA => dollars 10
  end.

Definition tier_count (tier : TicketTier) : nat :=
  match tier with VIP => 100 | FrontRow => 200 | GA => 1000 end%nat.

(** [allTickets = [...vipTickets, ...frontRowTickets, ...gaTickets]] *)
Definition allTickets : list TicketTier :=
  replicate (tier_count VIP) VIP ++ replicate (tier_count FrontRow) FrontRow
  ++ replicate (tier_count GA) GA.

(** The tickets are inserted only into an empty table, one by one in the
    order of [allTickets]; each takes the next value of the sequence behind
    [tickets.id], so that on a fresh database the ids are 1, 2, ... *)
Definition migrate (now : Z) (d : Database) : Database :=
  match tickets d with
  | [] =>
      mkDatabase
        (imap (λ i tier, Ticket.mk (tickets_id_seq d + Z.of_nat i + 1) tier
                                   (tier_price tier) true now)
              allTickets)
        (bookings d) (bookings_id_seq d)
        (tickets_id_seq d + Z.of_nat (length allTickets))
  | _ :: _ => d
  end.

(** The tables as [CREATE TABLE] leaves them. *)
Definition empty_database : Database := mkDatabase [] [] 0 0.

(** ** Operations of the service, in sequence *)

Inductive Operation :=
  | OpCreateBooking (env : Env) (request : BookingRequest)
  | OpGetTicketAvailability
  | OpGetAllAvailableTickets.

Definition step (d : Database) (op : Operation) : Database :=
  match op with
  | OpCreateBooking env request => durable (createBooking env request d).2
  | OpGetTicketAvailability => durable (getTicketAvailability d).2
  | OpGetAllAvailableTickets => durable (getAllAvailableTickets d).2
  end.

Definition run (ops : list Operation) (d : Database) : Database :=
  foldl step d ops.

(** ** The request surface ([routes/bookingRoutes.ts], [index.ts]) *)

Inductive jsnumber :=
  | Finite (q : Q)
  | Infinite (negative : bool).

(** The JSON value a request carries as its body. *)
#[warnings="-register-all"]
Inductive json :=
  | JNull
  | JBool (b : bool)
  | JNumber (n : jsnumber)
  | JString (s : string)
  | JArray (items : list json)
  | JObject (fields : list (string * json)).

(** [body[key]]: of two fields with one name, [JSON.parse] keeps the last. *)
Fixpoint field (key : string) (fields : list (string * json)) : option json :=
  match fields with
  | [] => None
  | (k, v) :: rest =>
      match field key rest with
      | Some v' => Some v'
      | None => if bool_decide (k = key) then Some v else None
      end
  end.

(** [Number.isInteger] *)
Definition is_integer (q : Q) : bool := (Qden (Qred q) =? 1)%positive.

(** [z.enum(['VIP', 'Front Row', 'GA'])] *)
Definition parse_tier (v : option json) : option TicketTier :=
  match v with
  | Some (JString s) =>
      if bool_decide (s = "VIP") then Some VIP
      else if bool_decide (s = "Front Row") then Some FrontRow
      else if bool_decide (s = "GA") then Some GA
      else None
  | _ => None
  end.

(** [z.number().int().min(1).max(100)] *)
Definition parse_quantity (v : option json) : option Z :=
  match v with
  | Some (JNumber (Finite q)) =>
      let n := Qnum (Qred q) in
      if is_integer q && (1 <=? n) && (n <=? 100) then Some n else None
  | _ => None
  end.

(** [z.string().min(1)] *)
Definition parse_userId (v : option json) : option string :=
  match v with
  | Some (JString s) => if (1 <=? String.length s)%nat then Some s else None
  | _ => None
  end.

(** [bookingRequestSchema.safeParse(req.body)]: [Some data] on success. *)
Definition safeParse (body : json) : option BookingRequest :=
  match body with
  | JObject fields =>
      match parse_tier (field "tier" fields),
            parse_quantity (field "quantity" fields),
            parse_userId (field "userId" fields) with
      | Some tier, Some quantity, Some userId =>
          Some (mkRequest tier quantity userId)
      | _, _, _ => None
      end
  | _ => None
  end.

Inductive ResponseBody :=
  | InvalidRequest                      (* { error: 'Invalid request', details } *)
  | Booked (bookings : list Booking.t)  (* { success: true, bookings, message } *)
  | ErrorMessage (e : Error)            (* { error: error.message } *)
  | FailedToCreateBooking               (* { error: 'Failed to create booking' } *)
  | InternalServerError.                (* { error: 'Internal server error' } *)

Record Response := mkResponse {
  status : Z;
  body : ResponseBody
}.

(** The [catch] of the handler tells the errors apart by a phrase of their
    message; the message of a [DatabaseError] is PostgreSQL's and holds none
    of the three phrases. *)
Definition error_response (e : Error) : Response :=
  match e with
  | InsufficientTickets _ _ => mkResponse 409 (ErrorMessage e)
  | AlreadyBooked => mkResponse 409 (ErrorMessage e)
  | PaymentFailed => mkResponse 402 (ErrorMessage e)
  | DatabaseError _ => mkResponse 500 FailedToCreateBooking
  end.

(** [router.post('/')]: the response, the committed state afterwards, and
    the events of the call of [createBooking], if any. *)
Definition post_bookings (env : Env) (req_body : json) (d : Database)
    : Response * Database * list Event :=
  match safeParse req_body with
  | None => (mkResponse 400 InvalidRequest, d, [])
  | Some bookingRequest =>
      match createBooking env bookingRequest d with
      | (Return booked, c) => (mkResponse 201 (Booked booked), durable c, trace c)
      | (Throw e, c) => (error_response e, durable c, trace c)
      end
  end.

(** [app.use(express.json())]: the parser, in its default strict mode, hands
    on a body that is an object or an array; for any other JSON value it
    fails, and the route is not reached. *)
Definition express_json (req_body : json) : option json :=
  match req_body with
  | JObject _ | JArray _ => Some req_body
  | _ => None
  end.

(** A [POST /api/bookings] as [index.ts] serves it: the body parser, then
    the route; the failure of the parser goes to the error handling
    middleware, which answers 500. *)
Definition app_post_bookings (env : Env) (req_body : json) (d : Database)
    : Response * Database * list Event :=
  match express_json req_body with
  | Some parsed => post_bookings env parsed d
  | None => (mkResponse 500 InternalServerError, d, [])
  end.

(** ** The client ([frontend/src/api.ts], [components/BookingForm.tsx]) *)

(** [JSON.stringify(request)], as the body parser of the server reads it
    back: the three properties, in the order of the object literal. *)
Definition request_body (request : BookingRequest) : json :=
  JObject [("tier", JString (tier_name (req_tier request)));
           ("quantity", JNumber (Finite (inject_Z (req_quantity request))));
           ("userId", JString (req_userId request))].

(** [response.ok] *)
Definition response_ok (r : Response) : bool :=
  (200 <=? status r) && (status r <=? 299).

(** The outcome of [createBooking] of [api.ts]: the parsed body it returns,
    or the [Error] it throws, made from the body of the answer. *)
Inductive ApiResult :=
  | ApiOk (answer : ResponseBody)
  | ApiThrow (answer : ResponseBody).

(** [createBooking] of [api.ts]: the POST to [/api/bookings], which is
    taken to reach the server of [index.ts]. *)
Definition api_createBooking (env : Env) (request : BookingRequest)
    (d : Database) : ApiResult * Database * list Event :=
  let '(response, d', tr) := app_post_bookings env (request_body request) d in
  (if response_ok response then ApiOk (body response)
   else ApiThrow (body response),
   d', tr).

(** The state of [BookingForm]. *)
Record FormState := mkFormState {
  selectedTier : TicketTier;
  form_quantity : Z;
  loading : bool
}.

(** What [handleSubmit] reports to its parent. *)
Inductive FormCallback :=
  | OnErrorOnlyAvailable (maxQuantity : Z) (tier : TicketTier)
      (* onError(`Only ${maxQuantity} tickets available for ${selectedTier}`) *)
  | OnErrorQuantityAtLeastOne
      (* onError('Quantity must be at least 1') *)
  | OnBookingSuccess (count : Z) (tier : TicketTier) (totalPrice : Z)
      (* onBookingSuccess(`Successfully booked ${count} ${tier} ticket(s)! Total: ...`) *)
  | OnErrorMessage (answer : ResponseBody).
      (* onError(err.message || 'Failed to create booking') *)

(** [setQuantity(parseInt(e.target.value) || 1)]; [parsed] is the result of
    [parseInt], [None] for [NaN]. *)
Definition onQuantityChange (parsed : option Z) (st : FormState) : FormState :=
  mkFormState (selectedTier st)
              (match parsed with
               | Some n => if n =? 0 then 1 else n
               | None => 1
               end)
              (loading st).

(** [setSelectedTier(e.target.value); setQuantity(1)] *)
Definition onTierChange (tier : TicketTier) (st : FormState) : FormState :=
  mkFormState tier 1 (loading st).

(** [handleSubmit]: the two checks of the form, then the call of the API;
    the callback, the state of the form afterwards, the committed state of
    the server and the events of the server's [createBooking], if any.
    An answer with [response.ok] but without [bookings] makes
    [response.bookings.length] throw, which the [catch] reports through
    [onError] like any other failure; the route gives no such answer. *)
Definition handleSubmit (env : Env) (availability : Availability)
    (userId : string) (st : FormState) (d : Database)
    : FormCallback * FormState * Database * list Event :=
  let selectedTierData := report availability (selectedTier st) in
  let maxQuantity := ta_available selectedTierData in
  let totalPrice := ta_price selectedTierData * form_quantity st in
  if maxQuantity <? form_quantity st then
    (OnErrorOnlyAvailable maxQuantity (selectedTier st), st, d, [])
  else if form_quantity st <? 1 then
    (OnErrorQuantityAtLeastOne, st, d, [])
  else
    match api_createBooking env
            (mkRequest (selectedTier st) (form_quantity st) userId) d with
    | (ApiOk (Booked booked), d', tr) =>
        (OnBookingSuccess (Z.of_nat (length booked)) (selectedTier st) totalPrice,
         mkFormState (selectedTier st) 1 false, d', tr)
    | (ApiOk answer, d', tr) =>
        (OnErrorMessage answer,
         mkFormState (selectedTier st) (form_quantity st) false, d', tr)
    | (ApiThrow answer, d', tr) =>
        (OnErrorMessage answer,
         mkFormState (selectedTier st) (form_quantity st) false, d', tr)
    end.

(** ** Notions used in the statements *)

Definition same_tables (d1 d2 : Database) : Prop :=
  tickets d1 = tickets d2 ∧ bookings d1 = bookings d2.

(** The events of one turn of the loop. *)
Definition insert_event (request : BookingRequest) (reference : string)
    (ticket : Ticket.t) : Event :=
  EvQuery (InsertBooking (Ticket.id ticket) (req_userId request) 1
                         (Ticket.price ticket) reference).

Definition update_event (ticket : Ticket.t) : Event :=
  EvQuery (UpdateTicketUnavailable (Ticket.id ticket)).

(** The row an accepted [INSERT] of [createBooking] adds. *)
Definition pending_row (env : Env) (request : BookingRequest) (seq : Z)
    (ticket : Ticket.t) : Booking.t :=
  Booking.mk (seq + 1) (Ticket.id ticket) (varchar255 (req_userId request)) 1
             (Ticket.price ticket) pending (Some (bookingReference env))
             (db_clock env).

(** [claims env request ts d rows d']: starting from [d], every ticket of
    [ts] in turn gets its row inserted and is marked unavailable; [rows] are
    the inserted rows and [d'] the state reached. *)
Inductive claims (env : Env) (request : BookingRequest)
    : list Ticket.t → Database → list Booking.t → Database → Prop :=
  | claims_nil d : claims env request [] d [] d
  | claims_cons ticket rest d row rows d' :
      row = pending_row env request (bookings_id_seq d) ticket →
      contains_nul (req_userId request) = false →
      fits_varchar255 (req_userId request) = true →
      violates_unique row (bookings d) = false →
      references_ticket row (tickets d) = true →
      claims env request rest
        (update_ticket_unavailable (Ticket.id ticket)
           (mkDatabase (tickets d) (bookings d ++ [row]) (bookings_id_seq d + 1)
                       (tickets_id_seq d)))
        rows d' →
      claims env request (ticket :: rest) d (row :: rows) d'.

Definition loop_events (request : BookingRequest) (reference : string)
    (ts : list Ticket.t) : list Event :=
  flat_map (λ x, [insert_event request reference x; update_event x]) ts.

Definition is_payment (e : Event) : bool :=
  match e with EvSimulatePayment _ => true | _ => false end.

Definition is_commit_or_rollback (e : Event) : bool :=
  match e with
  | EvQuery Commit | EvQuery Rollback => true
  | _ => false
  end.

(** The rows the selection of [getAvailableTickets] chooses from. *)
Definition eligible (env : Env) (tier : TicketTier) (x : Ticket.t) : bool :=
  matches tier x && unlocked (locked env) x.

(** The number of confirmed reservations of one unit. *)
Definition confirmed (unit_id : Z) (d : Database) : nat :=
  length (filter (λ b, Booking.ticket_id b = unit_id
                       ∧ Booking.payment_status b = success) (bookings d)).

(** The events a turn of the loop can leave. *)
Definition is_loop_event (e : Event) : bool :=
  match e with
  | EvQuery (InsertBooking _ _ _ _ _)
  | EvQuery (UpdateTicketUnavailable _)
  | EvQuery Rollback => true
  | _ => false
  end.

(** The trace up to the selection of the tickets. *)
Definition selection_events (request : BookingRequest) : list Event :=
  [EvConnect;
   EvQuery SetTransactionIsolationLevelSerializable;
   EvQuery Begin;
   EvQuery (SelectTicketsForUpdateSkipLocked (req_tier request)
                                             (req_quantity request))].

(** The outcome of [simulatePayment]. *)
Definition paid (env : Env) : bool := negb (Qle_bool (payment_draw env) one_tenth).

(** ** Sample data *)

Definition sample_ticket (i : Z) (tier : TicketTier) (free : bool) : Ticket.t :=
  Ticket.mk i tier (tier_price tier) free 0.

(** Five tickets, stored out of order; ticket 2 is sold already. *)
Definition sample_db : Database :=
  mkDatabase
    [sample_ticket 3 GA true; sample_ticket 1 GA true; sample_ticket 2 GA false;
     sample_ticket 4 VIP true; sample_ticket 5 GA true]
    [Booking.mk 1 2 "amy" 1 (dollars 10) success (Some "BK-1699999999999-k3x9w2m1q") 0]
    1 5.

(** An attempt during which no row is locked and the payment succeeds. *)
Definition sample_env : Env :=
  mkEnv [] 1700000000000%N "abc123xyz" (1 # 2) 42.

(** An attempt during which ticket 1 is locked by another transaction and
    the payment fails. *)
Definition sample_env_failing : Env :=
  mkEnv [1] 1700000000001%N "q0w9e8r7t" (1 # 20) 43.

(** The attempt of [sample_env] made again half a second later: the clock
    and the random numbers have moved on. *)
Definition sample_env_retry : Env :=
  mkEnv [] 1700000000500%N "r4t5y6u7i" (7 # 10) 44.

(** User ids the column [user_id VARCHAR(255)] does not take as they are:
    one with the character U+0000 in it, one of 256 letters, one of three
    letters and 297 spaces; and one it does take, of 200 letters of two
    bytes each. *)
Definition nul_user_id : string := "b" +:+ String Ascii.zero "b".

Definition long_user_id : string :=
  String.string_of_list_ascii (replicate 256 (Ascii.ascii_of_nat 98)).

Definition padded_user_id : string :=
  "bob" +:+ String.string_of_list_ascii (replicate 297 Ascii.Space).

Definition accented_user_id : string :=
  String.string_of_list_ascii
    (mjoin (replicate 200 (String.list_ascii_of_string "é"))).

(** A state a race could leave: ticket 7 is still marked available although
    a reservation row for it exists. *)
Definition raced_db : Database :=
  mkDatabase
    [sample_ticket 7 GA true]
    [Booking.mk 1 7 "amy" 1 (dollars 10) success (Some "BK-1699999999999-k3x9w2m1q") 0]
    1 7.

(** How a ticket row can differ between two states: not at all, or it was
    available and is now the same row marked unavailable. *)
Definition same_or_sold (t t' : Ticket.t) : Prop :=
  t' = t ∨ (Ticket.available t = true ∧ t' = Ticket.set_available false t).

(** The entry of the report built from a row of the query. *)
Definition entry_of_row (row : AvailabilityRow) : TierAvailability :=
  mkTierAvailability (row_available row) (row_total row) (row_price row).

(** The entry returned for a tier that has no row. *)
Definition default_entry (tier : TicketTier) : TierAvailability :=
  match tier with
  | VIP => mkTierAvailability 0 0 (dollars 100)
  | FrontRow => mkTierAvailability 0 0 (dollars 50)
  | GA => mkTierAvailability 0 0 (dollars 10)
  end.

(** A database without GA tickets. *)
Definition vip_only_db : Database :=
  mkDatabase [sample_ticket 1 VIP true; sample_ticket 2 VIP false] [] 0 2.

(** What the request surface asks of a body, in the words of its contract:
    a tier that is one of the three, a quantity that is an integer from 1 to
    100, a user id that is a string and not empty. *)
Definition valid_tier (v : option json) : Prop :=
  v = Some (JString "VIP") ∨ v = Some (JString "Front Row")
  ∨ v = Some (JString "GA").

Definition valid_quantity (v : option json) : Prop :=
  ∃ (q : Q) (n : Z),
    v = Some (JNumber (Finite q)) ∧ Qeq q (inject_Z n) ∧ 1 ≤ n ≤ 100.

Definition valid_userId (v : option json) : Prop :=
  ∃ s, v = Some (JString s) ∧ s ≠ EmptyString.

Definition valid_body (req_body : json) : Prop :=
  ∃ fields,
    req_body = JObject fields
    ∧ valid_tier (field "tier" fields)
    ∧ valid_quantity (field "quantity" fields)
    ∧ valid_userId (field "userId" fields).

(** How often [simulatePayment] was called. *)
Definition payments (tr : list Event) : nat :=
  length (filter (λ ev, is_payment ev = true) tr).

(** A ticket that carries the price of its tier. *)
Definition priced (x : Ticket.t) : Prop :=
  Ticket.price x = tier_price (Ticket.tier x).

(** ** Notions used in the further statements *)

(** What the declarations of [migrate.ts] demand of a state: the primary
    keys, the two [UNIQUE] columns of [bookings] and the reference from
    [bookings.ticket_id] to [tickets.id]. *)
Definition schema_ok (d : Database) : Prop :=
  NoDup (map Ticket.id (tickets d))
  ∧ NoDup (map Booking.id (bookings d))
  ∧ NoDup (map Booking.ticket_id (bookings d))
  ∧ NoDup (omap Booking.booking_reference (bookings d))
  ∧ ∀ b, b ∈ bookings d →
         ∃ x, x ∈ tickets d ∧ Ticket.id x = Booking.ticket_id b.

(** Tickets and reservations agree: every reservation row is confirmed, and
    a ticket is unavailable exactly when a reservation row names it. *)
Definition consistent (d : Database) : Prop :=
  (∀ b, b ∈ bookings d → Booking.payment_status b = success)
  ∧ ∀ x, x ∈ tickets d →
         (Ticket.available x = false
          ↔ ∃ b, b ∈ bookings d ∧ Booking.ticket_id b = Ticket.id x).

(** The tickets one attempt selects. *)
Definition selected (env : Env) (request : BookingRequest) (d : Database)
    : list Ticket.t :=
  take (Z.to_nat (req_quantity request))
       (candidates (locked env) (req_tier request) d).

(** The events an attempt leaves between its selection query and the
    simulated payment. *)
Definition is_claim_event (e : Event) : bool :=
  match e with
  | EvReference _ => true
  | _ => is_loop_event e
  end.

Definition is_begin (e : Event) : bool :=
  match e with EvQuery Begin => true | _ => false end.

(** A ticket row after [UPDATE tickets SET available = false] has run for
    each of the ids [ids]. *)
Definition mark_sold (ids : list Z) (x : Ticket.t) : Ticket.t :=
  if bool_decide (Ticket.id x ∈ ids) then Ticket.set_available false x else x.

(** * Properties *)

(** ** The statements of the service *)

Lemma insert_booking_inv now tid uid q p ref d r d' :
  insert_booking now tid uid q p ref d = (r, d') →
  let row := Booking.mk (bookings_id_seq d + 1) tid (varchar255 uid) q p pending
                        (Some ref) now in
  tickets d' = tickets d ∧ tickets_id_seq d' = tickets_id_seq d ∧
  ((r = Return row ∧ bookings d' = bookings d ++ [row]
    ∧ bookings_id_seq d' = bookings_id_seq d + 1
    ∧ contains_nul uid = false
    ∧ fits_varchar255 uid = true
    ∧ violates_unique row (bookings d) = false
    ∧ references_ticket row (tickets d) = true)
   ∨ (bookings d' = bookings d ∧
      ((r = Throw (DatabaseError character_not_in_repertoire)
        ∧ contains_nul uid = true)
       ∨ (r = Throw (DatabaseError string_data_right_truncation)
          ∧ contains_nul uid = false
          ∧ fits_varchar255 uid = false)
       ∨ (r = Throw (DatabaseError unique_violation)
          ∧ contains_nul uid = false
          ∧ fits_varchar255 uid = true
          ∧ violates_unique row (bookings d) = true)
       ∨ (r = Throw (DatabaseError foreign_key_violation)
          ∧ contains_nul uid = false
          ∧ fits_varchar255 uid = true
          ∧ violates_unique row (bookings d) = false
          ∧ references_ticket row (tickets d) = false)))).
Proof.
  unfold insert_booking. intros H.
  destruct (contains_nul uid); simpl in H;
    [|destruct (fits_varchar255 uid); simpl in H;
      [destruct (violates_unique _ _); simpl in H;
       [|destruct (references_ticket _ _); simpl in H]|]];
    inversion H; subst; simpl; naive_solver.
Qed.

(** A text of at most 255 characters is stored as it is. *)
Lemma clip_short n s : (char_length s ≤ n)%nat → clip n s = s.
Proof.
  revert n. induction s as [|a s IH]; intros n Hn; [done|].
  simpl in *. destruct (is_continuation a).
  - by rewrite IH.
  - destruct n as [|m]; [lia|]. rewrite IH; [done|lia].
Qed.

Lemma excess_short n s : (char_length s ≤ n)%nat → excess n s = EmptyString.
Proof.
  revert n. induction s as [|a s IH]; intros n Hn; [done|].
  simpl in *. destruct (is_continuation a).
  - by apply IH.
  - destruct n as [|m]; [lia|]. apply IH. lia.
Qed.

Lemma varchar255_short s : (char_length s ≤ 255)%nat → varchar255 s = s.
Proof. apply clip_short. Qed.

Lemma fits_varchar255_short s :
  (char_length s ≤ 255)%nat → fits_varchar255 s = true.
Proof. intros Hs. unfold fits_varchar255. by rewrite excess_short. Qed.

(** ** One turn of the loop *)

Lemma createBooking_step_inv env request reference ticket acc c r c' :
  createBooking_step env request reference ticket acc c = (r, c') →
  ∃ ri d1,
    insert_booking (db_clock env) (Ticket.id ticket) (req_userId request) 1
                   (Ticket.price ticket) reference (db c) = (ri, d1) ∧
    match ri with
    | Return row =>
        r = Return (acc ++ [row]) ∧
        c' = mkClient (update_ticket_unavailable (Ticket.id ticket) d1) (snapshot c)
               (trace c ++ [insert_event request reference ticket;
                            update_event ticket])
    | Throw e =>
        if bool_decide (error_code e = Some unique_violation) then
          r = Throw AlreadyBooked ∧
          c' = mkClient (durable (mkClient d1 (snapshot c) [])) None
                 (trace c ++ [insert_event request reference ticket;
                              EvQuery Rollback])
        else
          r = Throw e ∧
          c' = mkClient d1 (snapshot c)
                 (trace c ++ [insert_event request reference ticket])
    end.
Proof.
  unfold createBooking_step, try_catch, bind, query_insert_booking,
    query_update_ticket_unavailable, query_rollback, ret, throw, record, set_db.
  simpl. intros H.
  destruct (insert_booking _ _ _ _ _ _ _) as [ri d1] eqn:Hi.
  exists ri, d1. split; [done|].
  destruct ri as [row|e]; simpl in H.
  - inversion H; subst. by rewrite <- app_assoc.
  - destruct (bool_decide _); simpl in H; inversion H; subst; simpl.
    + by rewrite <- app_assoc.
    + done.
Qed.

(** ** The loop *)

Lemma createBooking_loop_Return env request ts : ∀ acc c booked c',
  createBooking_loop env request (bookingReference env) ts acc c
    = (Return booked, c') →
  ∃ rows, booked = acc ++ rows
    ∧ claims env request ts (db c) rows (db c')
    ∧ snapshot c' = snapshot c
    ∧ trace c' = trace c ++ loop_events request (bookingReference env) ts.
Proof.
  induction ts as [|t rest IH]; intros acc c booked c' H; simpl in H.
  - inversion H; subst. exists []. rewrite !app_nil_r.
    repeat split; constructor.
  - unfold bind in H.
    destruct (createBooking_step _ _ _ _ _ _) as [[acc1|e] c1] eqn:Hs; [|done].
    apply createBooking_step_inv in Hs as (ri & d1 & Hi & Hs).
    apply insert_booking_inv in Hi as (Ht & Hq & Hi).
    destruct ri as [row|e].
    + destruct Hs as [[= ->] ->].
      destruct Hi as [([= ->] & Hb & Hs & Hnul & Hfit & Hu & Hfk)
                     |(_ & [[? _]|[[? _]|[[? _]|[? _]]]])]; [|done..].
      apply IH in H as (rows & -> & Hc & Hsnap & Htr). simpl in *.
      eexists (_ :: rows). rewrite <- app_assoc. split; [done|]. split.
      * eapply claims_cons; [done..|].
        destruct d1 as [t1 b1 s1 s2]; simpl in *; subst. exact Hc.
      * split; [done|]. by rewrite Htr, <- app_assoc.
    + destruct (bool_decide _); by destruct Hs as [[=] _].
Qed.

Lemma createBooking_loop_Throw env request reference ts : ∀ acc c s e c',
  snapshot c = Some s →
  createBooking_loop env request reference ts acc c = (Throw e, c') →
  same_tables (durable c') s
  ∧ ((e = AlreadyBooked ∧ snapshot c' = None)
     ∨ (∃ code, e = DatabaseError code ∧ code ≠ unique_violation
                ∧ snapshot c' = Some s))
  ∧ ∃ evs, trace c' = trace c ++ evs ∧ Forall (λ ev, is_loop_event ev = true) evs.
Proof.
  induction ts as [|t rest IH]; intros acc c s e c' Hsnap H; simpl in H; [done|].
  unfold bind in H.
  destruct (createBooking_step _ _ _ _ _ _) as [[acc1|e1] c1] eqn:Hs.
  - apply createBooking_step_inv in Hs as (ri & d1 & Hi & Hs).
    destruct ri as [row|e2]; [|destruct (bool_decide _); by destruct Hs].
    destruct Hs as [_ ->].
    eapply IH in H as (Hsame & He & evs & Htr & Hevs); [|simpl; exact Hsnap].
    split; [done|]. split; [done|]. simpl in Htr.
    eexists (_ :: _ :: evs). rewrite Htr, <- app_assoc. split; [done|].
    by repeat constructor.
  - inversion H; subst e1 c1; clear H.
    apply createBooking_step_inv in Hs as (ri & d1 & Hi & Hs).
    apply insert_booking_inv in Hi as (Ht & Hq & Hi).
    destruct ri as [row|e2]; [by destruct Hs|].
    case_bool_decide as Hcode.
    + destruct Hs as [[= ->] ->]. rewrite Hsnap. unfold durable; simpl.
      split; [by split|]. split; [by left|].
      eexists [_; _]. split; [done|]. by repeat constructor.
    + destruct Hs as [[= <-] ->]. unfold durable; simpl. rewrite Hsnap.
      split; [by split|]. split.
      * right.
        destruct Hi as [[[=] _]
                       |(_ & [[[= ->] _]|[[[= ->] _]|[[[= ->] _]|[[= ->] _]]]])].
        -- by exists character_not_in_repertoire.
        -- by exists string_data_right_truncation.
        -- by destruct Hcode.
        -- by exists foreign_key_violation.
      * eexists [_]. split; [done|]. by repeat constructor.
Qed.

(** Membership in an explicit list of events that differ from the event
    sought. *)
Ltac absurd_event H :=
  repeat (apply elem_of_cons in H as [H|H]; [discriminate H|]);
  by apply elem_of_nil in H.

(** ** The committed state *)

Lemma durable_idle d tr : durable (mkClient d None tr) = d.
Proof. done. Qed.

Lemma durable_open c s :
  snapshot c = Some s → durable c = restore s (db c).
Proof. unfold durable. by intros ->. Qed.

(** ** The two parts of the [try] block *)

Lemma createBooking_claim_unfold env request d :
  createBooking_claim env request (pool_connect d) =
  match select_for_update_skip_locked (locked env) (req_tier request)
                                      (req_quantity request) d with
  | Throw e => (Throw e, mkClient d (Some d) (selection_events request))
  | Return ts =>
      if Z.of_nat (length ts) <? req_quantity request then
        (Throw (InsufficientTickets (req_quantity request) (Z.of_nat (length ts))),
         mkClient d None (selection_events request ++ [EvQuery Rollback]))
      else
        createBooking_loop env request (bookingReference env) ts []
          (mkClient d (Some d)
             (selection_events request ++ [EvReference (bookingReference env)]))
  end.
Proof.
  unfold createBooking_claim, bind, query_set_isolation, log, query_begin,
    getAvailableTickets, query_select_for_update_skip_locked, record,
    pool_connect. simpl.
  destruct (select_for_update_skip_locked _ _ _ _) as [ts|e]; [|done].
  destruct (_ <? _); [|done].
  unfold query_rollback, throw, durable, restore, record. simpl.
  by destruct d.
Qed.

Lemma createBooking_unfold env request d :
  createBooking env request d =
  match createBooking_claim env request (pool_connect d) with
  | (Return booked, c1) =>
      if paid env then
        (Return (map (Booking.set_payment_status success) booked),
         mkClient (update_bookings_success (bookingReference env) (db c1)) None
           (trace c1 ++ [EvSimulatePayment true;
                         EvQuery (UpdateBookingsSuccess (bookingReference env));
                         EvQuery Commit; EvRelease]))
      else
        (Throw PaymentFailed,
         mkClient (durable c1) None
           (trace c1 ++ [EvSimulatePayment false; EvQuery Rollback;
                         EvQuery Rollback; EvRelease]))
  | (Throw e, c1) =>
      (Throw e,
       mkClient (durable c1) None (trace c1 ++ [EvQuery Rollback; EvRelease]))
  end.
Proof.
  unfold createBooking, try_finally, try_catch, createBooking_try, bind.
  destruct (createBooking_claim _ _ _) as [[booked|e] c1]; simpl.
  - unfold createBooking_confirm, bind, simulatePayment. fold (paid env).
    destruct (paid env); simpl.
    + unfold client_release, record; simpl. by rewrite <- !app_assoc.
    + unfold createBooking_catch, try_catch, bind, query_rollback, throw,
        client_release, record; simpl.
      unfold durable at 1; simpl. by rewrite <- !app_assoc.
  - unfold createBooking_catch, try_catch, bind, query_rollback, throw,
      client_release, record; simpl. by rewrite <- !app_assoc.
Qed.

(** ** Candidate selection *)

Global Instance by_id_total : Total by_id.
Proof. intros x y. unfold by_id. lia. Qed.

Global Instance by_id_trans : Transitive by_id.
Proof. intros x y z. unfold by_id. lia. Qed.

Lemma StronglySorted_sublist {A} (R : relation A) (l k : list A) :
  l `sublist_of` k → StronglySorted R k → StronglySorted R l.
Proof.
  induction 1 as [|x l k Hs IH|x l k Hs IH]; intros Hk; [done|..].
  - apply StronglySorted_cons in Hk as [Hx Hk].
    apply StronglySorted_cons. split; [|by apply IH].
    rewrite Forall_forall in *. intros y Hy. apply Hx.
    by eapply elem_of_sublist.
  - apply StronglySorted_cons in Hk as [_ Hk]. by apply IH.
Qed.

Lemma candidates_Permutation held tier d :
  candidates held tier d
  ≡ₚ filter (λ x, matches tier x = true ∧ unlocked held x = true) (tickets d).
Proof.
  unfold candidates. rewrite merge_sort_Permutation.
  rewrite list_filter_filter. apply Permutation_refl'.
  apply list_filter_iff. intros x. tauto.
Qed.

Lemma candidates_sorted held tier d :
  StronglySorted by_id (candidates held tier d).
Proof.
  unfold candidates. eapply StronglySorted_sublist; [by apply sublist_filter|].
  apply StronglySorted_merge_sort; apply _.
Qed.

Lemma elem_of_candidates held tier d x :
  x ∈ candidates held tier d ↔
  x ∈ tickets d ∧ matches tier x = true ∧ unlocked held x = true.
Proof.
  rewrite candidates_Permutation, list_elem_of_filter. tauto.
Qed.

Lemma select_Return held tier limit d ts :
  select_for_update_skip_locked held tier limit d = Return ts →
  0 ≤ limit ∧ ts = take (Z.to_nat limit) (candidates held tier d).
Proof.
  unfold select_for_update_skip_locked.
  destruct (limit <? 0) eqn:Hl; [done|]. intros [= <-]. split; [lia|done].
Qed.

(** C4. Candidate selection is lowest-id-first. For a quantity that is not
    negative, [getAvailableTickets] returns, without changing the state,
    [min(quantity, count)] rows, where [count] is the number of rows of the
    tier that are available and not locked by another transaction; the rows
    returned are such rows, each taken once, in ascending order of id; and
    every such row that is not returned has an id at least as large as each
    returned one. Locked rows are passed over: the call returns. *)
Theorem getAvailableTickets_lowest_id_first env tier quantity c :
  0 ≤ quantity →
  ∃ ts,
    getAvailableTickets env tier quantity c
      = (Return ts,
         record (EvQuery (SelectTicketsForUpdateSkipLocked tier quantity)) c)
    ∧ length ts
      = Nat.min (Z.to_nat quantity)
          (length (filter (λ x, eligible env tier x = true) (tickets (db c))))
    ∧ ts ⊆+ filter (λ x, eligible env tier x = true) (tickets (db c))
    ∧ StronglySorted by_id ts
    ∧ ∀ x y, x ∈ ts → y ∈ tickets (db c) → eligible env tier y = true →
             y ∉ ts → Ticket.id x ≤ Ticket.id y.
Proof.
  intros Hq.
  assert (Hperm : candidates (locked env) tier (db c)
            ≡ₚ filter (λ x, eligible env tier x = true) (tickets (db c))).
  { rewrite candidates_Permutation. apply Permutation_refl'.
    apply list_filter_iff. intros x. unfold eligible.
    rewrite andb_true_iff. tauto. }
  exists (take (Z.to_nat quantity) (candidates (locked env) tier (db c))).
  repeat split.
  - unfold getAvailableTickets, query_select_for_update_skip_locked,
      select_for_update_skip_locked. simpl.
    destruct (quantity <? 0) eqn:Hneg; [lia|done].
  - by rewrite length_take, Hperm.
  - rewrite <- Hperm. apply sublist_submseteq, sublist_take.
  - eapply StronglySorted_sublist; [apply sublist_take|apply candidates_sorted].
  - intros x y Hx Hy He Hny.
    pose proof (candidates_sorted (locked env) tier (db c)) as Hs.
    rewrite <- (take_drop (Z.to_nat quantity)) in Hs.
    apply StronglySorted_app in Hs as (Hs & _ & _). apply Hs; [done|].
    assert (y ∈ candidates (locked env) tier (db c)) as Hin.
    { rewrite Hperm. by apply list_elem_of_filter. }
    rewrite <- (take_drop (Z.to_nat quantity)) in Hin.
    apply elem_of_app in Hin as [?|?]; done.
Qed.

Lemma getAvailableTickets_lowest_id_first_witness :
  0 ≤ 2 ∧
  ∃ ts,
    getAvailableTickets sample_env_failing GA 2 (pool_connect sample_db)
      = (Return ts,
         record (EvQuery (SelectTicketsForUpdateSkipLocked GA 2))
                (pool_connect sample_db))
    ∧ length ts
      = Nat.min (Z.to_nat 2)
          (length (filter (λ x, eligible sample_env_failing GA x = true)
                          (tickets (db (pool_connect sample_db)))))
    ∧ ts ⊆+ filter (λ x, eligible sample_env_failing GA x = true)
                   (tickets (db (pool_connect sample_db)))
    ∧ StronglySorted by_id ts
    ∧ ∀ x y, x ∈ ts → y ∈ tickets (db (pool_connect sample_db)) →
             eligible sample_env_failing GA y = true →
             y ∉ ts → Ticket.id x ≤ Ticket.id y.
Proof.
  split; [lia|].
  apply (getAvailableTickets_lowest_id_first sample_env_failing GA 2
           (pool_connect sample_db)).
  lia.
Defined.

Example getAvailableTickets_skips_locked :
  (getAvailableTickets sample_env_failing GA 2 (pool_connect sample_db)).1
  = Return [sample_ticket 3 GA true; sample_ticket 5 GA true].
Proof. vm_compute. reflexivity. Qed.

Example getAvailableTickets_negative_quantity :
  (getAvailableTickets sample_env GA (-1) (pool_connect sample_db)).1
  = Throw (DatabaseError "2201W").
Proof. reflexivity. Qed.

(** ** The uniqueness constraints *)

Lemma violates_unique_false row rows :
  violates_unique row rows = false ↔
  ∀ b, b ∈ rows →
    Booking.id b ≠ Booking.id row
    ∧ Booking.ticket_id b ≠ Booking.ticket_id row
    ∧ ∀ r, Booking.booking_reference row = Some r →
           Booking.booking_reference b ≠ Some r.
Proof.
  unfold violates_unique. rewrite <- not_true_iff_false, existsb_exists.
  split.
  - intros Hn b Hb. repeat split.
    + intros Heq. apply Hn. exists b. rewrite <- list_elem_of_In.
      split; [done|]. rewrite !orb_true_iff, !bool_decide_eq_true. tauto.
    + intros Heq. apply Hn. exists b. rewrite <- list_elem_of_In.
      split; [done|]. rewrite !orb_true_iff, !bool_decide_eq_true. tauto.
    + intros r Hr Heq. apply Hn. exists b. rewrite <- list_elem_of_In.
      split; [done|]. rewrite Hr, !orb_true_iff, !bool_decide_eq_true. tauto.
  - intros Hall (b & Hb & Hv). rewrite <- list_elem_of_In in Hb.
    destruct (Hall b Hb) as (Hid & Htid & Href).
    rewrite !orb_true_iff, !bool_decide_eq_true in Hv.
    destruct Hv as [[?|?]|Hv]; [done..|].
    destruct (Booking.booking_reference row) as [r|]; [|done].
    apply bool_decide_eq_true in Hv. by eapply Href.
Qed.

Lemma violates_unique_ticket_id row rows b :
  b ∈ rows → Booking.ticket_id b = Booking.ticket_id row →
  violates_unique row rows = true.
Proof.
  intros Hb Heq. apply not_false_iff_true. intros Hf.
  rewrite violates_unique_false in Hf. by destruct (Hf b Hb) as (_ & ? & _).
Qed.

Lemma violates_unique_reference row rows b r :
  b ∈ rows → Booking.booking_reference row = Some r →
  Booking.booking_reference b = Some r →
  violates_unique row rows = true.
Proof.
  intros Hb Hr Heq. apply not_false_iff_true. intros Hf.
  rewrite violates_unique_false in Hf.
  destruct (Hf b Hb) as (_ & _ & Hn). by eapply Hn.
Qed.

(** ** What a completed loop has done *)

Section claims.

Context (env : Env) (request : BookingRequest).

Lemma claims_length ts d rows d' :
  claims env request ts d rows d' → length rows = length ts.
Proof. induction 1; simpl; congruence. Qed.

Lemma claims_bookings ts d rows d' :
  claims env request ts d rows d' → bookings d' = bookings d ++ rows.
Proof.
  induction 1 as [|t rest d row rows d' -> _ _ _ _ _ IH]; simpl.
  - by rewrite app_nil_r.
  - rewrite IH. simpl. by rewrite <- app_assoc.
Qed.

Lemma claims_rows ts d rows d' :
  claims env request ts d rows d' →
  Forall2 (λ t row, ∃ seq, row = pending_row env request seq t) ts rows.
Proof. induction 1; constructor; eauto. Qed.

Lemma claims_tickets ts d rows d' :
  claims env request ts d rows d' →
  tickets d' =
  map (λ x, if bool_decide (Ticket.id x ∈ map Ticket.id ts)
            then Ticket.set_available false x else x) (tickets d).
Proof.
  induction 1 as [|t rest d row rows d' _ _ _ _ _ _ IH].
  - rewrite <- (map_id (tickets d)) at 1. apply map_ext. intros x.
    case_bool_decide as Hin; [|done]. by apply elem_of_nil in Hin.
  - rewrite IH. cbn [tickets update_ticket_unavailable].
    rewrite map_map. apply map_ext. intros x.
    cbn [map]. rewrite (bool_decide_ext _ _ (elem_of_cons _ _ _)).
    destruct (decide (Ticket.id x = Ticket.id t)) as [Heq|Hne].
    + rewrite (bool_decide_eq_true_2 (_ = _) Heq).
      rewrite (bool_decide_eq_true_2 (_ ∨ _)) by (by left).
      cbn [Ticket.set_available Ticket.id]. by case_bool_decide.
    + rewrite (bool_decide_eq_false_2 (_ = _) Hne).
      do 2 case_bool_decide; first [done|tauto].
Qed.

Lemma claims_fresh ts d rows d' :
  claims env request ts d rows d' →
  ∀ t b, t ∈ ts → b ∈ bookings d → Booking.ticket_id b ≠ Ticket.id t.
Proof.
  induction 1 as [|t rest d row rows d' -> _ _ Hu _ _ IH]; intros x b Hx Hb.
  - by apply elem_of_nil in Hx.
  - apply elem_of_cons in Hx as [->|Hx].
    + rewrite violates_unique_false in Hu. by destruct (Hu b Hb) as (_ & ? & _).
    + apply IH; [done|]. simpl. apply elem_of_app. by left.
Qed.

Lemma claims_NoDup ts d rows d' :
  claims env request ts d rows d' →
  NoDup (map Booking.ticket_id (bookings d)) →
  NoDup (map Booking.ticket_id (bookings d')).
Proof.
  induction 1 as [|t rest d row rows d' -> _ _ Hu _ _ IH]; intros Hd; [done|].
  apply IH. simpl. rewrite map_app. apply NoDup_app. split; [done|].
  split; [|apply NoDup_singleton].
  intros i Hi [->|[]%elem_of_nil]%elem_of_cons.
  apply list_elem_of_fmap in Hi as (b & Hbi & Hb).
  rewrite violates_unique_false in Hu. destruct (Hu b Hb) as (_ & Hn & _).
  by apply Hn.
Qed.

(** The reference is the same for every row of an attempt, and the column
    [booking_reference] is [UNIQUE]: the loop completes for at most one
    ticket. *)
Lemma claims_at_most_one ts d rows d' :
  claims env request ts d rows d' → (length ts ≤ 1)%nat.
Proof.
  destruct 1 as [|t rest d row rows d' -> _ _ _ _ Hrest]; simpl; [lia|].
  inversion Hrest as [|t2 rest2 d2 row2 rows2 d2' -> _ _ Hu2 _ _]; subst;
    simpl; [lia|].
  simpl in Hu2. exfalso. apply not_true_iff_false in Hu2. apply Hu2.
  apply (violates_unique_reference _ _
           (pending_row env request (bookings_id_seq d) t)
           (bookingReference env)); [|reflexivity..].
  rewrite elem_of_app, list_elem_of_singleton. by right.
Qed.
End claims.

(** ** The outcome of the first part *)

Lemma createBooking_claim_Return env request d booked c1 :
  createBooking_claim env request (pool_connect d) = (Return booked, c1) →
  let ts := take (Z.to_nat (req_quantity request))
                 (candidates (locked env) (req_tier request) d) in
  Z.of_nat (length ts) = req_quantity request
  ∧ claims env request ts d booked (db c1)
  ∧ snapshot c1 = Some d
  ∧ trace c1 = selection_events request
               ++ EvReference (bookingReference env)
               :: loop_events request (bookingReference env) ts.
Proof.
  rewrite createBooking_claim_unfold. intros H ts.
  destruct (select_for_update_skip_locked _ _ _ _) as [ts'|e] eqn:Hsel; [|done].
  apply select_Return in Hsel as [Hq Hts]. fold ts in Hts. subst ts'.
  destruct (_ <? _) eqn:Hlt; [done|].
  apply createBooking_loop_Return in H as (rows & -> & Hc & Hsnap & Htr).
  simpl in *. split; [|split; [done|split; [done|]]].
  - apply Z.ltb_ge in Hlt. unfold ts in *. rewrite length_take in *. lia.
  - exact Htr.
Qed.

Lemma createBooking_claim_Throw env request d e c1 :
  createBooking_claim env request (pool_connect d) = (Throw e, c1) →
  same_tables (durable c1) d
  ∧ e ≠ PaymentFailed
  ∧ ∃ evs, trace c1 = selection_events request ++ evs
           ∧ Forall (λ ev, is_payment ev = false ∧ ev ≠ EvQuery Commit) evs.
Proof.
  rewrite createBooking_claim_unfold. intros H.
  destruct (select_for_update_skip_locked _ _ _ _) as [ts|e'] eqn:Hsel.
  - destruct (_ <? _).
    + inversion H; subst. split; [done|]. split; [done|].
      eexists [_]. split; [done|]. by repeat constructor.
    + eapply createBooking_loop_Throw in H as (Hsame & He & evs & Htr & Hevs);
        [|done].
      split; [done|]. split; [by destruct He as [[-> _]|(? & -> & _)]|].
      simpl in Htr. exists (EvReference (bookingReference env) :: evs).
      split; [by rewrite Htr|].
      constructor; [done|]. eapply Forall_impl; [exact Hevs|].
      intros [| [] | | |]; simpl; done.
  - inversion H; subst. split; [done|]. split.
    { unfold select_for_update_skip_locked in Hsel.
      by destruct (_ <? _); inversion Hsel. }
    exists []. split; [|done]. by rewrite app_nil_r.
Qed.

(** ** Failure is atomic *)

(** C2. [createBooking] is all-or-nothing on error. Whatever error a call
    throws (too few tickets, a rejected insertion, a failed payment, an
    error of the database), both tables are afterwards what they were
    before the call, no transaction is left open, nothing was committed,
    and the last query sent before the connection goes back to the pool is
    a [ROLLBACK]. After a failed payment in particular, every ticket the
    attempt had selected is in the table as it was, with [available = true],
    and no reservation row refers to it. *)
Theorem createBooking_all_or_nothing env request d e c :
  createBooking env request d = (Throw e, c) →
  tickets (durable c) = tickets d
  ∧ bookings (durable c) = bookings d
  ∧ snapshot c = None
  ∧ (∃ evs, trace c = evs ++ [EvQuery Rollback; EvRelease]
            ∧ EvQuery Commit ∉ evs)
  ∧ (e = PaymentFailed →
     ∀ t, t ∈ take (Z.to_nat (req_quantity request))
                   (candidates (locked env) (req_tier request) d) →
       t ∈ tickets (durable c)
       ∧ Ticket.available t = true
       ∧ ∀ b, b ∈ bookings (durable c) → Booking.ticket_id b ≠ Ticket.id t).
Proof.
  rewrite createBooking_unfold.
  destruct (createBooking_claim _ _ _) as [[booked|e1] c1] eqn:Hclaim.
  - apply createBooking_claim_Return in Hclaim as (Hlen & Hc & Hsnap & Htr).
    destruct (paid env); [done|]. intros [= <- <-].
    rewrite durable_idle, (durable_open _ _ Hsnap). simpl.
    split; [done|]. split; [done|]. split; [done|]. split.
    + exists (trace c1 ++ [EvSimulatePayment false; EvQuery Rollback]).
      rewrite <- app_assoc. split; [done|].
      rewrite Htr. intros Hin. rewrite !elem_of_app in Hin.
      destruct Hin as [[Hin|Hin]|Hin].
      * unfold selection_events in Hin. absurd_event Hin.
      * apply elem_of_cons in Hin as [[=]|Hin].
        unfold loop_events in Hin.
        apply list_elem_of_In, in_flat_map in Hin as (x & _ & [[=]|[[=]|[]]]).
      * absurd_event Hin.
    + intros _ t Ht.
      assert (t ∈ candidates (locked env) (req_tier request) d) as Hcand.
      { eapply elem_of_sublist; [done|apply sublist_take]. }
      apply elem_of_candidates in Hcand as (Hin & Hm & _).
      split; [done|]. split.
      * unfold matches in Hm. by apply andb_true_iff in Hm as [_ ?].
      * intros b Hb. by eapply claims_fresh.
  - apply createBooking_claim_Throw in Hclaim as ([Ht Hb] & Hne & evs & Htr & Hevs).
    intros [= <- <-]. rewrite durable_idle. simpl.
    split; [done|]. split; [done|]. split; [done|]. split; [|done].
    exists (trace c1). split; [done|].
    rewrite Htr. intros Hin. apply elem_of_app in Hin as [Hin|Hin].
    + unfold selection_events in Hin. absurd_event Hin.
    + rewrite Forall_forall in Hevs. by destruct (Hevs _ Hin).
Qed.

Lemma createBooking_all_or_nothing_witness :
  createBooking sample_env_failing (mkRequest GA 1 "bob") sample_db
  = (Throw PaymentFailed,
     (createBooking sample_env_failing (mkRequest GA 1 "bob") sample_db).2)
  ∧ tickets (durable (createBooking sample_env_failing (mkRequest GA 1 "bob")
                                    sample_db).2)
    = tickets sample_db
  ∧ bookings (durable (createBooking sample_env_failing (mkRequest GA 1 "bob")
                                     sample_db).2)
    = bookings sample_db.
Proof.
  split; [by vm_compute|].
  destruct (createBooking_all_or_nothing sample_env_failing
              (mkRequest GA 1 "bob") sample_db PaymentFailed
              (createBooking sample_env_failing (mkRequest GA 1 "bob")
                             sample_db).2) as (Ht & Hb & _).
  - by vm_compute.
  - by split.
Defined.

(** ** Too few tickets *)

Lemma length_candidates env tier d :
  length (candidates (locked env) tier d)
  = length (filter (λ x, eligible env tier x = true) (tickets d)).
Proof.
  rewrite candidates_Permutation. f_equal.
  apply list_filter_iff. intros x. unfold eligible.
  rewrite andb_true_iff. tauto.
Qed.

(** C3. When fewer rows of the tier are available and unlocked than the
    request asks for, [createBooking] sends [ROLLBACK] and throws the
    "Insufficient tickets" error with the quantity requested and the number
    found; the database is left exactly as it was, and besides the selection
    no statement was sent: no row was inserted, no ticket updated. And a
    call that returns always returns as many reservations as were asked
    for, never fewer. *)
Theorem createBooking_insufficient env request d :
  (Z.of_nat (length (filter (λ x, eligible env (req_tier request) x = true)
                            (tickets d)))
   < req_quantity request →
   createBooking env request d
   = (Throw (InsufficientTickets
               (req_quantity request)
               (Z.of_nat (length (filter (λ x, eligible env (req_tier request) x = true)
                                         (tickets d))))),
      mkClient d None
        (selection_events request
         ++ [EvQuery Rollback; EvQuery Rollback; EvRelease])))
  ∧ (∀ booked c,
       createBooking env request d = (Return booked, c) →
       Z.of_nat (length booked) = req_quantity request).
Proof.
  split.
  - intros Hlt. rewrite createBooking_unfold, createBooking_claim_unfold.
    unfold select_for_update_skip_locked.
    rewrite <- length_candidates in *.
    destruct (Z.ltb_spec (req_quantity request) 0); [lia|].
    rewrite length_take_ge by lia.
    destruct (Z.ltb_spec (Z.of_nat (length (candidates (locked env)
                (req_tier request) d))) (req_quantity request)); [|lia].
    rewrite durable_idle. simpl. done.
  - intros booked c. rewrite createBooking_unfold.
    destruct (createBooking_claim _ _ _) as [[booked1|e1] c1] eqn:Hclaim; [|done].
    apply createBooking_claim_Return in Hclaim as (Hlen & Hc & _).
    destruct (paid env); [|done]. intros [= <- _].
    rewrite length_map, (claims_length _ _ _ _ _ _ Hc). exact Hlen.
Qed.

Lemma createBooking_insufficient_witness :
  Z.of_nat (length (filter (λ x, eligible sample_env GA x = true)
                           (tickets sample_db))) < 4
  ∧ createBooking sample_env (mkRequest GA 4 "bob") sample_db
    = (Throw (InsufficientTickets 4 3),
       mkClient sample_db None
         (selection_events (mkRequest GA 4 "bob")
          ++ [EvQuery Rollback; EvQuery Rollback; EvRelease])).
Proof.
  split; [by vm_compute|].
  apply (proj1 (createBooking_insufficient sample_env (mkRequest GA 4 "bob")
                                           sample_db)).
  by vm_compute.
Defined.

(** ** A completed booking *)

Lemma createBooking_Return env request d booked c :
  createBooking env request d = (Return booked, c) →
  ∃ rows d1,
    claims env request
      (take (Z.to_nat (req_quantity request))
            (candidates (locked env) (req_tier request) d)) d rows d1
    ∧ booked = map (Booking.set_payment_status success) rows
    ∧ snapshot c = None
    ∧ db c = update_bookings_success (bookingReference env) d1
    ∧ paid env = true
    ∧ Z.of_nat (length rows) = req_quantity request.
Proof.
  rewrite createBooking_unfold.
  destruct (createBooking_claim _ _ _) as [[rows|e1] c1] eqn:Hclaim; [|done].
  apply createBooking_claim_Return in Hclaim as (Hlen & Hc & _).
  destruct (paid env); [|done]. intros [= <- <-].
  exists rows, (db c1). rewrite (claims_length _ _ _ _ _ _ Hc). by repeat split.
Qed.

Lemma createBooking_Throw env request d e c :
  createBooking env request d = (Throw e, c) →
  same_tables (durable c) d.
Proof.
  rewrite createBooking_unfold.
  destruct (createBooking_claim _ _ _) as [[booked|e1] c1] eqn:Hclaim.
  - apply createBooking_claim_Return in Hclaim as (_ & _ & Hsnap & _).
    destruct (paid env); [done|]. intros [= <- <-].
    by rewrite durable_idle, (durable_open _ _ Hsnap).
  - apply createBooking_claim_Throw in Hclaim as (Hsame & _).
    intros [= <- <-]. by rewrite durable_idle.
Qed.

Lemma step_read_only d op :
  match op with OpCreateBooking _ _ => True | _ => step d op = d end.
Proof. by destruct op. Qed.

(** ** One reservation row per ticket *)

Lemma ticket_id_update_bookings_success reference d :
  map Booking.ticket_id (bookings (update_bookings_success reference d))
  = map Booking.ticket_id (bookings d).
Proof.
  simpl. rewrite map_map. apply map_ext. intros b. by case_bool_decide.
Qed.

Lemma step_NoDup d op :
  NoDup (map Booking.ticket_id (bookings d)) →
  NoDup (map Booking.ticket_id (bookings (step d op))).
Proof.
  intros Hd. destruct op as [env request| |]; [|done..]. simpl.
  destruct (createBooking env request d) as [[booked|e] c] eqn:Hcb; simpl.
  - apply createBooking_Return in Hcb as (rows & d1 & Hc & _ & Hsnap & Hdb & _).
    unfold durable. rewrite Hsnap, Hdb, ticket_id_update_bookings_success.
    by eapply claims_NoDup.
  - apply createBooking_Throw in Hcb as [_ ->]. done.
Qed.

Lemma run_NoDup ops : ∀ d,
  NoDup (map Booking.ticket_id (bookings d)) →
  NoDup (map Booking.ticket_id (bookings (run ops d))).
Proof.
  induction ops as [|op ops IH]; intros d Hd; [done|].
  apply IH. by apply step_NoDup.
Qed.

Lemma confirmed_at_most_one unit_id d :
  NoDup (map Booking.ticket_id (bookings d)) → (confirmed unit_id d ≤ 1)%nat.
Proof.
  unfold confirmed. generalize (bookings d) as bs.
  induction bs as [|b bs IH]; intros Hd; simpl; [lia|].
  apply NoDup_cons in Hd as [Hb Hd]. rewrite filter_cons.
  case_decide as Hc; [|by apply IH]. simpl.
  destruct Hc as [<- _].
  destruct (filter _ bs) as [|b' rest] eqn:Hf; [simpl; lia|].
  assert (b' ∈ filter (λ b0, Booking.ticket_id b0 = Booking.ticket_id b
                             ∧ Booking.payment_status b0 = success) bs) as Hin
    by (rewrite Hf; left).
  apply list_elem_of_filter in Hin as [[Heq _] Hin].
  destruct Hb. rewrite <- Heq. apply list_elem_of_fmap. by exists b'.
Qed.

(** ** A ticket that already has a reservation row *)

Lemma createBooking_step_unfold env request reference ticket acc c :
  createBooking_step env request reference ticket acc c =
  match insert_booking (db_clock env) (Ticket.id ticket) (req_userId request) 1
                       (Ticket.price ticket) reference (db c) with
  | (Return row, d1) =>
      (Return (acc ++ [row]),
       mkClient (update_ticket_unavailable (Ticket.id ticket) d1) (snapshot c)
         (trace c ++ [insert_event request reference ticket; update_event ticket]))
  | (Throw e, d1) =>
      if bool_decide (error_code e = Some unique_violation) then
        (Throw AlreadyBooked,
         mkClient (durable (mkClient d1 (snapshot c) [])) None
           (trace c ++ [insert_event request reference ticket; EvQuery Rollback]))
      else
        (Throw e,
         mkClient d1 (snapshot c)
           (trace c ++ [insert_event request reference ticket]))
  end.
Proof.
  destruct (createBooking_step _ _ _ _ _ _) as [r c'] eqn:Hs.
  apply createBooking_step_inv in Hs as (ri & d1 & -> & Hs).
  destruct ri as [row|e]; [by destruct Hs as [-> ->]|].
  destruct (bool_decide _); by destruct Hs as [-> ->].
Qed.

Lemma references_ticket_true row ts :
  references_ticket row ts = true ↔
  ∃ x, x ∈ ts ∧ Ticket.id x = Booking.ticket_id row.
Proof.
  unfold references_ticket. rewrite existsb_exists. split.
  - intros (x & Hx & Heq). exists x. rewrite list_elem_of_In.
    by apply bool_decide_eq_true in Heq.
  - intros (x & Hx & Heq). exists x. rewrite <- list_elem_of_In.
    by rewrite bool_decide_eq_true.
Qed.

Lemma createBooking_loop_conflict env request reference ts : ∀ acc c,
  contains_nul (req_userId request) = false →
  fits_varchar255 (req_userId request) = true →
  (∀ t, t ∈ ts → ∃ x, x ∈ tickets (db c) ∧ Ticket.id x = Ticket.id t) →
  (∃ t b, t ∈ ts ∧ b ∈ bookings (db c) ∧ Booking.ticket_id b = Ticket.id t) →
  ∃ c', createBooking_loop env request reference ts acc c
        = (Throw AlreadyBooked, c').
Proof.
  induction ts as [|t0 rest IH];
    intros acc c Hnul Hfit Hfk (t & b & Ht & Hb & Heq).
  { by apply elem_of_nil in Ht. }
  simpl. unfold bind. rewrite createBooking_step_unfold.
  unfold insert_booking. rewrite Hnul, Hfit. simpl.
  destruct (violates_unique _ _) eqn:Hu; simpl; [by eexists|].
  rewrite (proj2 (references_ticket_true _ _)); [simpl|by apply Hfk; left].
  apply IH; [done|done|..]; simpl.
  - intros t' Ht'. destruct (Hfk t') as (x & Hx & Hid); [by right|].
    eexists. split; [apply list_elem_of_fmap; by exists x|].
    by case_bool_decide.
  - exists t, b. rewrite elem_of_app. split; [|by auto].
    apply elem_of_cons in Ht as [->|Ht]; [|done].
    rewrite violates_unique_false in Hu. by destruct (Hu b Hb) as (_ & ? & _).
Qed.

(** C1. At most one confirmed reservation per ticket.
    First part: when a ticket that [createBooking] has selected already has
    a reservation row, and the request's [userId] is a text PostgreSQL
    stores in its column (it holds no character U+0000 and has at most 255
    characters, spaces at the end apart), so that the [INSERT] gets as far
    as the uniqueness check, the call throws
    'Ticket was already booked by another user' and both tables, the
    existing row included, are afterwards what they were.
    Second part: from a state in which no two reservation rows name the same
    ticket, as the [UNIQUE] constraint on [ticket_id] demands, no sequence of
    operations, with whatever requests, locks and payment outcomes, reaches
    a state with two confirmed reservations of one ticket. *)
Theorem no_double_booking :
  (∀ env request d t b,
     contains_nul (req_userId request) = false →
     fits_varchar255 (req_userId request) = true →
     t ∈ take (Z.to_nat (req_quantity request))
              (candidates (locked env) (req_tier request) d) →
     req_quantity request
     ≤ Z.of_nat (length (candidates (locked env) (req_tier request) d)) →
     b ∈ bookings d →
     Booking.ticket_id b = Ticket.id t →
     ∃ c, createBooking env request d = (Throw AlreadyBooked, c)
          ∧ tickets (durable c) = tickets d
          ∧ bookings (durable c) = bookings d)
  ∧ (∀ d ops unit_id,
       NoDup (map Booking.ticket_id (bookings d)) →
       (confirmed unit_id (run ops d) ≤ 1)%nat).
Proof.
  split.
  - intros env request d t b Hnul Hfit Ht Hq Hb Heq.
    assert (∃ c, createBooking env request d = (Throw AlreadyBooked, c))
      as [c Hc].
    { rewrite createBooking_unfold, createBooking_claim_unfold.
      unfold select_for_update_skip_locked.
      destruct (Z.ltb_spec (req_quantity request) 0) as [Hneg|Hpos].
      { rewrite Z2Nat.nonpos in Ht by lia. by apply elem_of_nil in Ht. }
      rewrite length_take_le by lia. rewrite Z2Nat.id by lia.
      rewrite Z.ltb_irrefl.
      edestruct (createBooking_loop_conflict env request (bookingReference env))
        as [c' ->]; [done|done| |by exists t, b|by eexists].
      intros t' Ht'. exists t'. split; [|done]. simpl.
      eapply elem_of_candidates, elem_of_sublist; [done|apply sublist_take]. }
    exists c. split; [done|]. by apply createBooking_Throw in Hc as [? ?].
  - intros d ops unit_id Hd. by apply confirmed_at_most_one, run_NoDup.
Qed.

Lemma no_double_booking_witness :
  (∃ c, createBooking sample_env (mkRequest GA 1 "bob") raced_db
        = (Throw AlreadyBooked, c)
        ∧ tickets (durable c) = tickets raced_db
        ∧ bookings (durable c) = bookings raced_db)
  ∧ (confirmed 1
       (run [OpCreateBooking sample_env (mkRequest GA 1 "bob");
             OpGetTicketAvailability;
             OpCreateBooking sample_env_failing (mkRequest GA 1 "cat");
             OpCreateBooking sample_env (mkRequest GA 1 "dan")] sample_db)
     ≤ 1)%nat.
Proof.
  destruct no_double_booking as [Hcall Hrun]. split.
  - apply (Hcall sample_env (mkRequest GA 1 "bob") raced_db
             (sample_ticket 7 GA true)
             (Booking.mk 1 7 "amy" 1 (dollars 10) success
                         (Some "BK-1699999999999-k3x9w2m1q") 0)).
    + reflexivity.
    + reflexivity.
    + vm_compute. apply list_elem_of_here.
    + vm_compute. discriminate.
    + apply list_elem_of_here.
    + reflexivity.
  - apply Hrun. simpl. apply NoDup_singleton.
Defined.

Example second_booking_with_same_reference_is_rejected :
  confirmed 1
    (run [OpCreateBooking sample_env (mkRequest GA 1 "bob");
          OpCreateBooking sample_env (mkRequest GA 1 "dan")] sample_db) = 1%nat
  ∧ confirmed 3
    (run [OpCreateBooking sample_env (mkRequest GA 1 "bob");
          OpCreateBooking sample_env (mkRequest GA 1 "dan")] sample_db) = 0%nat.
Proof. by vm_compute. Qed.

(** ** The availability flag *)

Lemma set_available_false_id t :
  Ticket.available t = false → Ticket.set_available false t = t.
Proof. destruct t; simpl. by intros ->. Qed.

Lemma same_or_sold_trans t1 t2 t3 :
  same_or_sold t1 t2 → same_or_sold t2 t3 → same_or_sold t1 t3.
Proof.
  intros [->|[H1 ->]] [->|[H2 ->]]; [by left|by right|by right|done].
Qed.

Lemma Forall2_same_or_sold_refl l : Forall2 same_or_sold l l.
Proof. induction l; constructor; [by left|done]. Qed.

Lemma Forall2_same_or_sold_trans l1 l2 l3 :
  Forall2 same_or_sold l1 l2 → Forall2 same_or_sold l2 l3 →
  Forall2 same_or_sold l1 l3.
Proof.
  intros H12. revert l3.
  induction H12 as [|t1 t2 l1 l2 H IH12 IH]; intros l3 H23;
    inversion H23; subst; constructor; eauto using same_or_sold_trans.
Qed.

Lemma Forall2_same_or_sold_mark (ids : list Z) l :
  Forall2 same_or_sold l
    (map (λ x, if bool_decide (Ticket.id x ∈ ids)
               then Ticket.set_available false x else x) l).
Proof.
  induction l as [|x l IH]; simpl; constructor; [|done].
  case_bool_decide; [|by left].
  destruct (Ticket.available x) eqn:Hx; [by right|].
  left. by apply set_available_false_id.
Qed.

Lemma createBooking_Return_tickets env request d booked c :
  createBooking env request d = (Return booked, c) →
  tickets (durable c) =
  map (λ x, if bool_decide
                 (Ticket.id x ∈ map Ticket.id
                    (take (Z.to_nat (req_quantity request))
                          (candidates (locked env) (req_tier request) d)))
            then Ticket.set_available false x else x) (tickets d).
Proof.
  intros Hcb.
  apply createBooking_Return in Hcb as (rows & d1 & Hc & _ & Hsnap & Hdb & _).
  unfold durable. rewrite Hsnap, Hdb. simpl.
  by apply claims_tickets in Hc.
Qed.

Lemma step_same_or_sold d op :
  Forall2 same_or_sold (tickets d) (tickets (step d op)).
Proof.
  destruct op as [env request| |]; simpl;
    [|apply Forall2_same_or_sold_refl..].
  destruct (createBooking env request d) as [[booked|e] c] eqn:Hcb; simpl.
  - rewrite (createBooking_Return_tickets _ _ _ _ _ Hcb).
    apply Forall2_same_or_sold_mark.
  - apply createBooking_Throw in Hcb as [-> _].
    apply Forall2_same_or_sold_refl.
Qed.

Lemma run_same_or_sold ops : ∀ d,
  Forall2 same_or_sold (tickets d) (tickets (run ops d)).
Proof.
  induction ops as [|op ops IH]; intros d; simpl.
  - apply Forall2_same_or_sold_refl.
  - eapply Forall2_same_or_sold_trans; [apply step_same_or_sold|apply IH].
Qed.

(** C6. The flag [available] only ever goes from true to false.
    Over any sequence of the three operations, each ticket row stays where
    it is and either does not change at all or was available and is now the
    same row with [available = false]; so a flag that is false stays false,
    and a flag changes at most once. A [createBooking] that throws leaves
    the table of tickets as it was, and so do the two reads. A
    [createBooking] that returns has turned the flag of each ticket it
    booked from true to false. *)
Theorem available_only_falls :
  (∀ d ops, Forall2 same_or_sold (tickets d) (tickets (run ops d)))
  ∧ (∀ d ops k t t',
       tickets d !! k = Some t → tickets (run ops d) !! k = Some t' →
       Ticket.id t' = Ticket.id t
       ∧ (Ticket.available t = false → Ticket.available t' = false))
  ∧ (∀ env request d e c,
       createBooking env request d = (Throw e, c) →
       tickets (durable c) = tickets d)
  ∧ (∀ d, step d OpGetTicketAvailability = d
          ∧ step d OpGetAllAvailableTickets = d)
  ∧ (∀ env request d booked c b,
       createBooking env request d = (Return booked, c) →
       b ∈ booked →
       (∃ t, t ∈ tickets d ∧ Ticket.id t = Booking.ticket_id b
             ∧ Ticket.available t = true)
       ∧ (∀ t', t' ∈ tickets (durable c) →
                Ticket.id t' = Booking.ticket_id b →
                Ticket.available t' = false)).
Proof.
  split; [|split; [|split; [|split]]].
  - intros d ops. apply run_same_or_sold.
  - intros d ops k t t' Hk Hk'.
    pose proof (run_same_or_sold ops d) as HF.
    destruct (Forall2_lookup_l _ _ _ _ _ HF Hk) as (t'' & Hk'' & Hs).
    rewrite Hk' in Hk''. injection Hk'' as <-.
    destruct Hs as [->|[Ha ->]]; [done|]. split; [done|].
    intros Hf. by rewrite Ha in Hf.
  - intros env request d e c Hcb. by apply createBooking_Throw in Hcb as [? _].
  - done.
  - intros env request d booked c b Hcb Hb.
    pose proof (createBooking_Return_tickets _ _ _ _ _ Hcb) as Htk.
    apply createBooking_Return in Hcb as (rows & d1 & Hc & -> & _).
    apply list_elem_of_fmap in Hb as (row & -> & Hrow).
    apply claims_rows in Hc.
    apply list_elem_of_lookup in Hrow as [i Hi].
    destruct (Forall2_lookup_r _ _ _ _ _ Hc Hi) as (t & Hti & seq & ->).
    apply list_elem_of_lookup_2 in Hti. simpl.
    split.
    + assert (t ∈ candidates (locked env) (req_tier request) d) as Hcand.
      { eapply elem_of_sublist; [done|apply sublist_take]. }
      apply elem_of_candidates in Hcand as (Hin & Hm & _).
      exists t. split; [done|]. split; [done|].
      unfold matches in Hm. by apply andb_true_iff in Hm as [_ ?].
    + intros t' Ht' Hid. rewrite Htk in Ht'.
      apply list_elem_of_fmap in Ht' as (x & -> & Hx).
      case_bool_decide as Hin; [done|]. destruct Hin.
      simpl in Hid. rewrite Hid. apply list_elem_of_fmap. by exists t.
Qed.

Lemma available_only_falls_witness :
  tickets sample_db !! 1%nat = Some (sample_ticket 1 GA true)
  ∧ tickets (run [OpCreateBooking sample_env (mkRequest GA 1 "bob");
                  OpCreateBooking sample_env_failing (mkRequest GA 1 "cat");
                  OpGetAllAvailableTickets] sample_db) !! 1%nat
    = Some (sample_ticket 1 GA false)
  ∧ Ticket.id (sample_ticket 1 GA false) = Ticket.id (sample_ticket 1 GA true)
  ∧ (Ticket.available (sample_ticket 1 GA true) = false →
     Ticket.available (sample_ticket 1 GA false) = false).
Proof.
  assert (tickets sample_db !! 1%nat = Some (sample_ticket 1 GA true)) as H1
    by reflexivity.
  assert (tickets (run [OpCreateBooking sample_env (mkRequest GA 1 "bob");
                        OpCreateBooking sample_env_failing (mkRequest GA 1 "cat");
                        OpGetAllAvailableTickets] sample_db) !! 1%nat
          = Some (sample_ticket 1 GA false)) as H2 by (by vm_compute).
  split; [exact H1|]. split; [exact H2|].
  exact (proj1 (proj2 available_only_falls) _ _ _ _ _ H1 H2).
Defined.

(** ** The availability report *)

Lemma group_row_tier tier ts row :
  group_row tier ts = Some row → row_tier row = tier.
Proof.
  unfold group_row. destruct (group_of tier ts); [done|]. by intros [= <-].
Qed.

Lemma getTicketAvailability_Return d :
  ∃ a, getTicketAvailability d
       = (Return a,
          mkClient d None [EvConnect; EvQuery SelectAvailabilityByTier; EvRelease])
       ∧ ∀ tier, report a tier
                 = default (default_entry tier)
                           (entry_of_row <$> group_row tier (tickets d)).
Proof.
  eexists. split; [reflexivity|]. intros tier.
  unfold select_availability_by_tier. simpl.
  destruct tier;
    destruct (group_row VIP (tickets d)) as [r1|] eqn:H1;
    destruct (group_row FrontRow (tickets d)) as [r2|] eqn:H2;
    destruct (group_row GA (tickets d)) as [r3|] eqn:H3;
    simpl; unfold assign_row;
    repeat match goal with
           | H : group_row _ _ = Some _ |- _ =>
               rewrite (group_row_tier _ _ _ H); clear H
           end;
    reflexivity.
Qed.

Lemma sum_available_filter g :
  sum_available g
  = Z.of_nat (length (filter (λ x, Ticket.available x = true) g)).
Proof.
  induction g as [|x g IH]; [done|]. unfold sum_available in *.
  rewrite filter_cons. cbn [foldr]. rewrite IH.
  destruct (Ticket.available x); case_decide; try done; simpl length; lia.
Qed.

Lemma max_price_uniform p x g :
  Ticket.price x = p → Forall (λ y, Ticket.price y = p) g →
  foldr (λ y m, Z.max (Ticket.price y) m) (Ticket.price x) g = p.
Proof.
  intros Hx. induction 1 as [|y g Hy _ IH]; simpl; [done|].
  rewrite IH, Hy. apply Z.max_id.
Qed.

Lemma report_entry d a tier :
  (getTicketAvailability d).1 = Return a →
  ta_available (report a tier)
  = Z.of_nat (length (filter (λ x, Ticket.tier x = tier
                                   ∧ Ticket.available x = true) (tickets d)))
  ∧ ta_total (report a tier)
    = Z.of_nat (length (filter (λ x, Ticket.tier x = tier) (tickets d)))
  ∧ ((∀ x, x ∈ tickets d → Ticket.tier x = tier →
           Ticket.price x = tier_price tier) →
     ta_price (report a tier) = tier_price tier).
Proof.
  destruct (getTicketAvailability_Return d) as (a' & -> & Hrep).
  intros [= <-]. rewrite Hrep. clear Hrep a'.
  assert (filter (λ x, Ticket.tier x = tier ∧ Ticket.available x = true)
                 (tickets d)
          = filter (λ x, Ticket.available x = true) (group_of tier (tickets d)))
    as ->.
  { unfold group_of. rewrite list_filter_filter.
    apply list_filter_iff. intros x. tauto. }
  fold (group_of tier (tickets d)).
  unfold group_row.
  destruct (group_of tier (tickets d)) as [|x g] eqn:Hg.
  - destruct tier; done.
  - cbn [fmap option_fmap option_map default entry_of_row ta_available
         ta_total ta_price row_available row_total row_price].
    split; [apply sum_available_filter|]. split; [done|].
    intros Hprice.
    assert (∀ y, y ∈ x :: g → Ticket.price y = tier_price tier) as Hall.
    { intros y Hy. rewrite <- Hg in Hy. unfold group_of in Hy.
      apply list_elem_of_filter in Hy as [? ?]. by apply Hprice. }
    apply max_price_uniform; [apply Hall; left|].
    apply Forall_forall. intros y Hy. apply Hall. by right.
Qed.

(** C8. The report agrees with the table. [getTicketAvailability] returns,
    without changing the database, a report in which, for each tier,
    [available] is the number of tickets of the tier whose flag is true and
    [total] the number of tickets of the tier; and when the tickets of the
    tier all carry the price [migrate.ts] gives the tier, [price] is that
    price. *)
Theorem report_is_consistent d :
  ∃ a,
    (getTicketAvailability d).1 = Return a
    ∧ durable (getTicketAvailability d).2 = d
    ∧ ∀ tier,
        ta_available (report a tier)
        = Z.of_nat (length (filter (λ x, Ticket.tier x = tier
                                         ∧ Ticket.available x = true)
                                   (tickets d)))
        ∧ ta_total (report a tier)
          = Z.of_nat (length (filter (λ x, Ticket.tier x = tier) (tickets d)))
        ∧ ((∀ x, x ∈ tickets d → Ticket.tier x = tier →
                 Ticket.price x = tier_price tier) →
           ta_price (report a tier) = tier_price tier).
Proof.
  destruct (getTicketAvailability_Return d) as (a & Heq & _).
  exists a. rewrite Heq. split; [done|]. split; [done|].
  intros tier. apply report_entry. by rewrite Heq.
Qed.

Lemma report_is_consistent_witness :
  (∀ x, x ∈ tickets sample_db → Ticket.tier x = GA →
        Ticket.price x = tier_price GA)
  ∧ ∃ a, (getTicketAvailability sample_db).1 = Return a
         ∧ ta_available (report a GA) = 3
         ∧ ta_total (report a GA) = 4
         ∧ ta_price (report a GA) = dollars 10.
Proof.
  assert (∀ x, x ∈ tickets sample_db → Ticket.tier x = GA →
               Ticket.price x = tier_price GA) as Hp.
  { intros x Hx. simpl in Hx.
    repeat (apply elem_of_cons in Hx as [->|Hx]; [done|]).
    by apply elem_of_nil in Hx. }
  split; [exact Hp|].
  destruct (report_is_consistent sample_db) as (a & Ha & _ & Hrep).
  exists a. split; [exact Ha|].
  destruct (Hrep GA) as (Hav & Htot & Hpr).
  split; [exact Hav|]. split; [exact Htot|]. exact (Hpr Hp).
Defined.

(** C10. A tier without tickets still has its entry.
    [getTicketAvailability] always returns a report with the three entries
    VIP, Front Row and GA; the entry of a tier of which the table holds no
    ticket is [{available: 0, total: 0}] with the price 100 for VIP, 50 for
    Front Row and 10 for GA. *)
Theorem report_defaults d :
  ∃ a,
    (getTicketAvailability d).1 = Return a
    ∧ ((∀ x, x ∈ tickets d → Ticket.tier x ≠ VIP) →
       av_VIP a = mkTierAvailability 0 0 (dollars 100))
    ∧ ((∀ x, x ∈ tickets d → Ticket.tier x ≠ FrontRow) →
       av_FrontRow a = mkTierAvailability 0 0 (dollars 50))
    ∧ ((∀ x, x ∈ tickets d → Ticket.tier x ≠ GA) →
       av_GA a = mkTierAvailability 0 0 (dollars 10)).
Proof.
  destruct (getTicketAvailability_Return d) as (a & Heq & Hrep).
  exists a. rewrite Heq. split; [done|].
  assert (∀ tier, (∀ x, x ∈ tickets d → Ticket.tier x ≠ tier) →
                  report a tier = default_entry tier) as Hnone.
  { intros tier Hno. rewrite Hrep. unfold group_row.
    destruct (group_of tier (tickets d)) as [|x g] eqn:Hg; [done|].
    assert (x ∈ group_of tier (tickets d)) as Hx by (rewrite Hg; left).
    unfold group_of in Hx. apply list_elem_of_filter in Hx as [Ht Hx].
    by destruct (Hno x Hx). }
  split; [apply (Hnone VIP)|]. split; [apply (Hnone FrontRow)|apply (Hnone GA)].
Qed.

Lemma report_defaults_witness :
  (∀ x, x ∈ tickets vip_only_db → Ticket.tier x ≠ GA)
  ∧ ∃ a, (getTicketAvailability vip_only_db).1 = Return a
         ∧ av_GA a = mkTierAvailability 0 0 (dollars 10).
Proof.
  assert (∀ x, x ∈ tickets vip_only_db → Ticket.tier x ≠ GA) as Hno.
  { intros x Hx. simpl in Hx.
    repeat (apply elem_of_cons in Hx as [->|Hx]; [done|]).
    by apply elem_of_nil in Hx. }
  split; [exact Hno|].
  destruct (report_defaults vip_only_db) as (a & Ha & _ & _ & Hga).
  exists a. split; [exact Ha|exact (Hga Hno)].
Defined.

Example report_of_empty_database :
  (getTicketAvailability empty_database).1
  = Return (mkAvailability (mkTierAvailability 0 0 10000)
                           (mkTierAvailability 0 0 5000)
                           (mkTierAvailability 0 0 1000)).
Proof. reflexivity. Qed.

(** ** Validation *)

Lemma parse_tier_Some v tier : parse_tier v = Some tier → valid_tier v.
Proof.
  unfold parse_tier, valid_tier. destruct v as [[]|]; try done.
  repeat case_bool_decide; subst; try done; auto.
Qed.

Lemma parse_quantity_Some v n : parse_quantity v = Some n → valid_quantity v.
Proof.
  unfold parse_quantity, valid_quantity.
  destruct v as [[| |[q|]| | |]|]; try done.
  destruct (is_integer q) eqn:Hint; [|done].
  destruct (Z.leb_spec 1 (Qnum (Qred q))); [|done].
  destruct (Z.leb_spec (Qnum (Qred q)) 100); [|done].
  simpl. intros [= <-]. exists q, (Qnum (Qred q)).
  split; [done|]. split; [|lia].
  unfold is_integer in Hint. apply Pos.eqb_eq in Hint.
  rewrite <- (Qred_correct q) at 1.
  destruct (Qred q) as [num den]. simpl in *. by subst.
Qed.

Lemma parse_userId_Some v s : parse_userId v = Some s → valid_userId v.
Proof.
  unfold parse_userId, valid_userId. destruct v as [[| | |s'| |]|]; try done.
  destruct s'; [done|]. intros _. by eexists.
Qed.

Lemma safeParse_Some req_body request :
  safeParse req_body = Some request → valid_body req_body.
Proof.
  unfold safeParse, valid_body. destruct req_body as [| | | | |fields]; try done.
  destruct (parse_tier _) as [tier|] eqn:Ht; [|done].
  destruct (parse_quantity _) as [n|] eqn:Hq; [|done].
  destruct (parse_userId _) as [s|] eqn:Hu; [|done].
  intros _. exists fields. split; [done|].
  split; [by eapply parse_tier_Some|].
  split; [by eapply parse_quantity_Some|by eapply parse_userId_Some].
Qed.

Lemma post_bookings_invalid env req_body d :
  (∀ fields, req_body = JObject fields →
     ¬ valid_tier (field "tier" fields)
     ∨ ¬ valid_quantity (field "quantity" fields)
     ∨ ¬ valid_userId (field "userId" fields)) →
  post_bookings env req_body d = (mkResponse 400 InvalidRequest, d, []).
Proof.
  intros Hinv. unfold post_bookings.
  destruct (safeParse req_body) as [request|] eqn:Hp; [|done].
  apply safeParse_Some in Hp as (fields & -> & Ht & Hq & Hu).
  destruct (Hinv fields eq_refl) as [?|[?|?]]; done.
Qed.

(** C9. Validation comes before any use of the inventory. Take a request
    whose body is not an object with a tier among 'VIP', 'Front Row' and
    'GA', a quantity that is an integer from 1 to 100 and a user id that is
    a non-empty string. If the body is one the body parser hands to the
    route, an object or an array, the request is answered with status 400.
    In every case [createBooking] is not called: no connection is taken, no
    query sent, and the database is what it was. (A body that is JSON but
    neither object nor array does not get as far as the validation: the
    parser refuses it and the error handler of [index.ts] answers 500.) *)
Theorem invalid_request_is_rejected env req_body d :
  (∀ fields, req_body = JObject fields →
     ¬ valid_tier (field "tier" fields)
     ∨ ¬ valid_quantity (field "quantity" fields)
     ∨ ¬ valid_userId (field "userId" fields)) →
  (express_json req_body = Some req_body →
   app_post_bookings env req_body d = (mkResponse 400 InvalidRequest, d, []))
  ∧ (app_post_bookings env req_body d).1.2 = d
  ∧ (app_post_bookings env req_body d).2 = [].
Proof.
  intros Hinv. unfold app_post_bookings.
  destruct (express_json req_body) as [parsed|] eqn:Hparsed.
  - assert (parsed = req_body) as ->.
    { destruct req_body; simpl in Hparsed; congruence. }
    rewrite (post_bookings_invalid env req_body d Hinv). by repeat split.
  - by repeat split.
Qed.

Lemma invalid_request_is_rejected_witness :
  app_post_bookings sample_env
    (JObject [("tier", JString "GA");
              ("quantity", JNumber (Finite (3 # 2)));
              ("userId", JString "bob")]) sample_db
  = (mkResponse 400 InvalidRequest, sample_db, []).
Proof.
  apply (invalid_request_is_rejected sample_env
           (JObject [("tier", JString "GA");
                     ("quantity", JNumber (Finite (3 # 2)));
                     ("userId", JString "bob")]) sample_db); [|reflexivity].
  intros fields [= <-]. right. left.
  intros (q & n & [= <-] & Heq & _).
  unfold Qeq in Heq. simpl in Heq. lia.
Defined.

Example body_that_is_no_object_is_refused_by_the_parser :
  app_post_bookings sample_env (JString "GA") sample_db
  = (mkResponse 500 InternalServerError, sample_db, [])
  ∧ app_post_bookings sample_env (JArray [JString "GA"]) sample_db
    = (mkResponse 400 InvalidRequest, sample_db, []).
Proof. by split. Qed.

Example quantity_above_ceiling_is_rejected :
  (post_bookings sample_env
     (JObject [("tier", JString "GA");
               ("quantity", JNumber (Finite (101 # 1)));
               ("userId", JString "bob")]) sample_db).1.1
  = mkResponse 400 InvalidRequest.
Proof. reflexivity. Qed.

Example valid_request_reaches_createBooking :
  (post_bookings sample_env
     (JObject [("tier", JString "GA");
               ("quantity", JNumber (Finite (2 # 2)));
               ("userId", JString "bob")]) sample_db).1.1
  = mkResponse 201
      (Booked [Booking.mk 2 1 "bob" 1 (dollars 10) success
                          (Some "BK-1700000000000-abc123xyz") 42]).
Proof. by vm_compute. Qed.

(** ** When the payment is simulated *)

Lemma payments_app tr1 tr2 : payments (tr1 ++ tr2) = (payments tr1 + payments tr2)%nat.
Proof. unfold payments. by rewrite filter_app, length_app. Qed.

Lemma payments_none tr :
  Forall (λ ev, is_payment ev = false) tr → payments tr = 0%nat.
Proof.
  unfold payments. induction 1 as [|ev tr Hev _ IH]; [done|].
  rewrite filter_cons, decide_False; [done|]. by rewrite Hev.
Qed.

Lemma loop_events_quiet request reference ts :
  Forall (λ ev, is_payment ev = false ∧ is_commit_or_rollback ev = false)
         (loop_events request reference ts).
Proof. induction ts; simpl; by repeat constructor. Qed.

Lemma selection_events_quiet request :
  Forall (λ ev, is_payment ev = false ∧ is_commit_or_rollback ev = false)
         (selection_events request).
Proof. by repeat constructor. Qed.

(** C7 does not hold as it is worded: an attempt that finds too few tickets
    (four GA tickets asked for, three to be had) never simulates a payment. *)
Lemma payment_not_simulated_when_insufficient :
  (createBooking sample_env (mkRequest GA 4 "bob") sample_db).1
  = Throw (InsufficientTickets 4 3)
  ∧ payments (trace (createBooking sample_env (mkRequest GA 4 "bob")
                                   sample_db).2) = 0%nat
  ∧ ¬ (∀ env request d,
         payments (trace (createBooking env request d).2) = 1%nat).
Proof.
  split; [by vm_compute|]. split; [by vm_compute|].
  intros H. specialize (H sample_env (mkRequest GA 4 "bob") sample_db).
  vm_compute in H. discriminate H.
Qed.

(** C7, as the code has it. [simulatePayment] is called at most once per
    attempt, and exactly once by an attempt whose first part (open the
    transaction, select, insert and mark) completes. At the moment of that
    call the transaction is open and nothing has been committed or rolled
    back; there are as many new reservation rows as tickets were asked for,
    each of them in the table with status pending; and every selected
    ticket is in the table marked unavailable. The commit, or the rollback,
    follows the call. An attempt whose first part throws never calls
    [simulatePayment]. *)
Theorem payment_between_claim_and_commit env request d :
  (payments (trace (createBooking env request d).2) ≤ 1)%nat
  ∧ (∀ booked c1,
       createBooking_claim env request (pool_connect d) = (Return booked, c1) →
       payments (trace (createBooking env request d).2) = 1%nat
       ∧ trace (createBooking env request d).2
         = trace c1
           ++ EvSimulatePayment (paid env)
           :: (if paid env
               then [EvQuery (UpdateBookingsSuccess (bookingReference env));
                     EvQuery Commit; EvRelease]
               else [EvQuery Rollback; EvQuery Rollback; EvRelease])
       ∧ Forall (λ ev, is_payment ev = false ∧ is_commit_or_rollback ev = false)
                (trace c1)
       ∧ snapshot c1 = Some d
       ∧ Z.of_nat (length booked) = req_quantity request
       ∧ (∀ b, b ∈ booked →
               b ∈ bookings (db c1) ∧ Booking.payment_status b = pending)
       ∧ (∀ t, t ∈ take (Z.to_nat (req_quantity request))
                        (candidates (locked env) (req_tier request) d) →
               Ticket.set_available false t ∈ tickets (db c1))
       ∧ (∀ t x, t ∈ take (Z.to_nat (req_quantity request))
                          (candidates (locked env) (req_tier request) d) →
                 x ∈ tickets (db c1) → Ticket.id x = Ticket.id t →
                 Ticket.available x = false))
  ∧ (∀ e c1,
       createBooking_claim env request (pool_connect d) = (Throw e, c1) →
       payments (trace (createBooking env request d).2) = 0%nat).
Proof.
  rewrite createBooking_unfold.
  destruct (createBooking_claim _ _ _) as [[booked|e] c1] eqn:Hclaim.
  - pose proof Hclaim as Hc.
    apply createBooking_claim_Return in Hc as (Hlen & Hc & Hsnap & Htr).
    assert (Forall (λ ev, is_payment ev = false ∧ is_commit_or_rollback ev = false)
                   (trace c1)) as Hquiet.
    { rewrite Htr. apply Forall_app. split; [apply selection_events_quiet|].
      constructor; [done|apply loop_events_quiet]. }
    assert (payments (trace c1) = 0%nat) as Hp0.
    { apply payments_none. eapply Forall_impl; [exact Hquiet|]. by intros ? [? _]. }
    assert (payments (trace (if paid env
              then (Return (map (Booking.set_payment_status success) booked),
                    mkClient (update_bookings_success (bookingReference env) (db c1))
                      None
                      (trace c1 ++ [EvSimulatePayment true;
                         EvQuery (UpdateBookingsSuccess (bookingReference env));
                         EvQuery Commit; EvRelease]))
              else (Throw PaymentFailed,
                    mkClient (durable c1) None
                      (trace c1 ++ [EvSimulatePayment false; EvQuery Rollback;
                                    EvQuery Rollback; EvRelease]))).2) = 1%nat)
      as Hp1.
    { destruct (paid env); simpl; by rewrite payments_app, Hp0. }
    split; [lia|]. split; [|done].
    intros booked' c1' [= <- <-].
    split; [done|]. split; [by destruct (paid env)|].
    split; [done|]. split; [done|].
    split; [by rewrite (claims_length _ _ _ _ _ _ Hc)|]. split.
    + intros b Hb. split.
      * rewrite (claims_bookings _ _ _ _ _ _ Hc). apply elem_of_app. by right.
      * apply claims_rows in Hc.
        apply list_elem_of_lookup in Hb as [i Hi].
        by destruct (Forall2_lookup_r _ _ _ _ _ Hc Hi) as (t & _ & seq & ->).
    + split.
      { intros t Ht. rewrite (claims_tickets _ _ _ _ _ _ Hc).
        apply list_elem_of_fmap. exists t. split.
        - rewrite bool_decide_eq_true_2; [done|].
          apply list_elem_of_fmap. by exists t.
        - eapply elem_of_candidates, elem_of_sublist; [done|apply sublist_take]. }
      intros t x Ht Hx Hid.
      rewrite (claims_tickets _ _ _ _ _ _ Hc) in Hx.
      apply list_elem_of_fmap in Hx as (x0 & -> & Hx0).
      case_bool_decide as Hin; [done|]. destruct Hin.
      rewrite Hid. apply list_elem_of_fmap. by exists t.
  - pose proof Hclaim as Hc.
    apply createBooking_claim_Throw in Hc as (_ & _ & evs & Htr & Hevs).
    assert (payments (trace c1 ++ [EvQuery Rollback; EvRelease]) = 0%nat) as Hp0.
    { apply payments_none. rewrite Htr. repeat (apply Forall_app; split).
      - eapply Forall_impl; [apply selection_events_quiet|]. by intros ? [? _].
      - eapply Forall_impl; [exact Hevs|]. by intros ? [? _].
      - by repeat constructor. }
    simpl. split; [lia|]. split; [done|]. by intros.
Qed.

Lemma payment_between_claim_and_commit_witness :
  payments (trace (createBooking sample_env_failing (mkRequest GA 1 "cat")
                                 sample_db).2) = 1%nat
  ∧ payments (trace (createBooking sample_env (mkRequest GA 4 "bob")
                                   sample_db).2) = 0%nat.
Proof.
  split.
  - destruct (payment_between_claim_and_commit sample_env_failing
                (mkRequest GA 1 "cat") sample_db) as (_ & Hreturn & _).
    destruct (Hreturn
                (match (createBooking_claim sample_env_failing
                          (mkRequest GA 1 "cat") (pool_connect sample_db)).1 with
                 | Return booked => booked
                 | Throw _ => []
                 end)
                (createBooking_claim sample_env_failing
                   (mkRequest GA 1 "cat") (pool_connect sample_db)).2)
      as [Hone _]; [by vm_compute|exact Hone].
  - destruct (payment_between_claim_and_commit sample_env
                (mkRequest GA 4 "bob") sample_db) as (_ & _ & Hthrow).
    apply (Hthrow (InsufficientTickets 4 3)
                  (createBooking_claim sample_env (mkRequest GA 4 "bob")
                                       (pool_connect sample_db)).2).
    by vm_compute.
Defined.

(** ** A reference that is already taken *)

Lemma set_payment_status_success_id b :
  Booking.payment_status b = success →
  Booking.set_payment_status success b = b.
Proof. destruct b; simpl. by intros ->. Qed.

Lemma update_bookings_success_confirmed reference d :
  (∀ b, b ∈ bookings d → Booking.booking_reference b = Some reference →
        Booking.payment_status b = success) →
  bookings (update_bookings_success reference d) = bookings d.
Proof.
  intros Hall. simpl. rewrite <- (map_id (bookings d)) at 2.
  apply map_ext_in. intros b Hb. apply list_elem_of_In in Hb.
  case_bool_decide; [|done]. apply set_payment_status_success_id. auto.
Qed.

Lemma claims_reference_taken env request ts d rows d' b :
  claims env request ts d rows d' →
  b ∈ bookings d → Booking.booking_reference b = Some (bookingReference env) →
  ts = [] ∧ rows = [] ∧ d' = d.
Proof.
  intros Hc Hb Href.
  destruct Hc as [|t rest d row rows d' -> _ _ Hu _ _]; [done|].
  apply not_true_iff_false in Hu. destruct Hu.
  by apply (violates_unique_reference _ _ b (bookingReference env)).
Qed.

Lemma createBooking_trace_prefix env request d :
  ∃ rest, trace (createBooking env request d).2 = selection_events request ++ rest.
Proof.
  rewrite createBooking_unfold.
  destruct (createBooking_claim _ _ _) as [[booked|e] c1] eqn:Hclaim.
  - apply createBooking_claim_Return in Hclaim as (_ & _ & _ & Htr).
    destruct (paid env); simpl; rewrite Htr, <- app_assoc; by eexists.
  - apply createBooking_claim_Throw in Hclaim as (_ & _ & evs & Htr & _).
    simpl. rewrite Htr, <- app_assoc. by eexists.
Qed.

Lemma createBooking_reference_taken env request d b :
  contains_nul (req_userId request) = false →
  fits_varchar255 (req_userId request) = true →
  1 ≤ req_quantity request
    ≤ Z.of_nat (length (candidates (locked env) (req_tier request) d)) →
  b ∈ bookings d →
  Booking.booking_reference b = Some (bookingReference env) →
  (createBooking env request d).1 = Throw AlreadyBooked.
Proof.
  intros Hnul Hfit [Hq1 Hq2] Hb Href.
  rewrite createBooking_unfold, createBooking_claim_unfold.
  unfold select_for_update_skip_locked.
  destruct (Z.ltb_spec (req_quantity request) 0) as [Hneg|Hpos]; [lia|].
  rewrite length_take_le by lia. rewrite Z2Nat.id by lia.
  rewrite Z.ltb_irrefl.
  destruct (Z.to_nat (req_quantity request)) as [|n] eqn:Hn; [lia|].
  destruct (candidates _ _ _) as [|t ts]; [simpl in Hq2; lia|].
  cbn [take createBooking_loop]. unfold bind.
  rewrite createBooking_step_unfold. unfold insert_booking.
  rewrite Hnul, Hfit. cbn [negb db].
  rewrite (violates_unique_reference _ _ b (bookingReference env)); done.
Qed.

(** Should a second attempt draw the reference of the first, it does not
    return the first batch either: it throws the conflict error. And in the
    trace of an attempt the reference is drawn after the selection query,
    not before. *)
Lemma retry_does_not_return_the_batch :
  (createBooking sample_env (mkRequest GA 1 "bob") sample_db).1
  = Return [Booking.mk 2 1 "bob" 1 (dollars 10) success
                       (Some "BK-1700000000000-abc123xyz") 42]
  ∧ (createBooking sample_env (mkRequest GA 1 "bob")
       (durable (createBooking sample_env (mkRequest GA 1 "bob") sample_db).2)).1
    = Throw AlreadyBooked
  ∧ take 5 (trace (createBooking sample_env (mkRequest GA 1 "bob") sample_db).2)
    = [EvConnect;
       EvQuery SetTransactionIsolationLevelSerializable;
       EvQuery Begin;
       EvQuery (SelectTicketsForUpdateSkipLocked GA 1);
       EvReference "BK-1700000000000-abc123xyz"].
Proof. by vm_compute. Qed.

(** [createBooking] takes no reference from its caller: it draws one
    itself, after the selection query. When the reference it draws is that
    of a batch already committed, the call consumes no ticket and creates
    no reservation row: both tables are left as they were. It does not
    return the committed batch: if it returns at all, it is for a quantity
    of zero and with no reservation; and for a request of at least one
    ticket, with enough tickets to be had and a user id PostgreSQL stores,
    it throws 'Ticket was already booked by another user', the [UNIQUE]
    constraint on [booking_reference] having rejected the first
    insertion. *)
Lemma taken_reference_is_rejected env request d :
  (∃ b, b ∈ bookings d
        ∧ Booking.booking_reference b = Some (bookingReference env)) →
  (∀ b, b ∈ bookings d →
        Booking.booking_reference b = Some (bookingReference env) →
        Booking.payment_status b = success) →
  tickets (durable (createBooking env request d).2) = tickets d
  ∧ bookings (durable (createBooking env request d).2) = bookings d
  ∧ (∀ booked, (createBooking env request d).1 = Return booked →
               booked = [] ∧ req_quantity request = 0)
  ∧ (contains_nul (req_userId request) = false →
     fits_varchar255 (req_userId request) = true →
     1 ≤ req_quantity request
       ≤ Z.of_nat (length (candidates (locked env) (req_tier request) d)) →
     (createBooking env request d).1 = Throw AlreadyBooked)
  ∧ ∃ rest, trace (createBooking env request d).2
            = selection_events request ++ rest.
Proof.
  intros (b & Hb & Href) Hall.
  assert (∀ booked c,
            createBooking env request d = (Return booked, c) →
            booked = [] ∧ req_quantity request = 0
            ∧ tickets (durable c) = tickets d
            ∧ bookings (durable c) = bookings d) as Hret.
  { intros booked c Hcb.
    apply createBooking_Return in Hcb
      as (rows & d1 & Hc & -> & Hsnap & Hdb & _ & Hlen).
    destruct (claims_reference_taken _ _ _ _ _ _ _ Hc Hb Href) as (_ & -> & ->).
    unfold durable. rewrite Hsnap, Hdb. simpl in Hlen.
    repeat split; [done..|]. by apply update_bookings_success_confirmed. }
  pose proof (createBooking_trace_prefix env request d) as Hprefix.
  pose proof (λ Hnul Hfit Hq, createBooking_reference_taken env request d b
                Hnul Hfit Hq Hb Href) as Htaken.
  destruct (createBooking env request d) as [[booked|e] c] eqn:Hcb.
  - destruct (Hret booked c eq_refl) as (-> & Hq & Ht & Hbk).
    split; [done|]. split; [done|]. split; [by intros ? [= <-]|].
    split; [exact Htaken|exact Hprefix].
  - pose proof (createBooking_Throw _ _ _ _ _ Hcb) as [Ht Hbk].
    split; [done|]. split; [done|]. split; [done|].
    split; [exact Htaken|exact Hprefix].
Qed.

Lemma taken_reference_is_rejected_sample :
  tickets (durable (createBooking sample_env (mkRequest GA 1 "bob")
             (durable (createBooking sample_env (mkRequest GA 1 "bob")
                                     sample_db).2)).2)
  = tickets (durable (createBooking sample_env (mkRequest GA 1 "bob")
                                    sample_db).2)
  ∧ bookings (durable (createBooking sample_env (mkRequest GA 1 "bob")
               (durable (createBooking sample_env (mkRequest GA 1 "bob")
                                       sample_db).2)).2)
    = bookings (durable (createBooking sample_env (mkRequest GA 1 "bob")
                                       sample_db).2).
Proof.
  destruct (taken_reference_is_rejected sample_env (mkRequest GA 1 "bob")
              (durable (createBooking sample_env (mkRequest GA 1 "bob")
                                      sample_db).2)) as (Ht & Hb & _).
  - exists (Booking.mk 2 1 "bob" 1 (dollars 10) success
                        (Some "BK-1700000000000-abc123xyz") 42).
    split; [|by vm_compute]. vm_compute.
    apply list_elem_of_further, list_elem_of_here.
  - intros b Hb Href. vm_compute in Hb.
    apply elem_of_cons in Hb as [->|Hb]; [by vm_compute in Href|].
    apply elem_of_cons in Hb as [->|Hb]; [done|].
    by apply elem_of_nil in Hb.
  - by split.
Defined.

(** C5. A retry is not recognised. The comment at the head of the service
    promises that retries with the same booking reference are handled
    gracefully, but [createBooking] takes no reference from its caller and
    never looks for an existing batch: each call draws a reference of its
    own and allocates anew. Here a booking of one GA ticket by 'bob'
    commits, and the same request is made again: the second call does not
    return the first batch but books another ticket under another
    reference, so that two tickets are sold and two reservations exist for
    what was one request. And the reference of an attempt is drawn after
    its selection query, not before. *)
Theorem retry_books_again :
  (createBooking sample_env (mkRequest GA 1 "bob") sample_db).1
  = Return [Booking.mk 2 1 "bob" 1 (dollars 10) success
                       (Some "BK-1700000000000-abc123xyz") 42]
  ∧ (createBooking sample_env_retry (mkRequest GA 1 "bob")
       (durable (createBooking sample_env (mkRequest GA 1 "bob") sample_db).2)).1
    = Return [Booking.mk 3 3 "bob" 1 (dollars 10) success
                         (Some "BK-1700000000500-r4t5y6u7i") 44]
  ∧ map Booking.ticket_id
      (filter (λ b, Booking.user_id b = "bob")
         (bookings
            (durable
               (createBooking sample_env_retry (mkRequest GA 1 "bob")
                  (durable (createBooking sample_env (mkRequest GA 1 "bob")
                                          sample_db).2)).2)))
    = [1; 3]
  ∧ map Ticket.id
      (filter (λ x, Ticket.available x = true)
         (tickets
            (durable
               (createBooking sample_env_retry (mkRequest GA 1 "bob")
                  (durable (createBooking sample_env (mkRequest GA 1 "bob")
                                          sample_db).2)).2)))
    = [4; 5]
  ∧ take 5 (trace (createBooking sample_env_retry (mkRequest GA 1 "bob")
               (durable (createBooking sample_env (mkRequest GA 1 "bob")
                                       sample_db).2)).2)
    = [EvConnect;
       EvQuery SetTransactionIsolationLevelSerializable;
       EvQuery Begin;
       EvQuery (SelectTicketsForUpdateSkipLocked GA 1);
       EvReference "BK-1700000000500-r4t5y6u7i"].
Proof. by vm_compute. Qed.

(** ** The migrated inventory *)

Lemma migrate_tickets now :
  tickets (migrate now empty_database)
  = imap (λ i tier, Ticket.mk (Z.of_nat i + 1) tier (tier_price tier) true now)
         allTickets.
Proof. reflexivity. Qed.

Lemma migrate_priced now : Forall priced (tickets (migrate now empty_database)).
Proof.
  apply Forall_forall. intros x Hx. rewrite migrate_tickets in Hx.
  apply elem_of_lookup_imap_1 in Hx as (i & tier & -> & _). done.
Qed.

Lemma same_or_sold_priced l l' :
  Forall2 same_or_sold l l' → Forall priced l → Forall priced l'.
Proof.
  induction 1 as [|t t' l l' Hs _ IH]; [done|].
  intros [Ht Hl]%Forall_cons. constructor; [|by apply IH].
  destruct Hs as [->|[_ ->]]; done.
Qed.

(** After the migration, and whatever operations follow, the report gives
    for every tier the price the migration gave its tickets. *)
Corollary report_after_migrate now ops tier a :
  (getTicketAvailability (run ops (migrate now empty_database))).1 = Return a →
  ta_price (report a tier) = tier_price tier.
Proof.
  intros Ha. apply (report_entry _ _ tier) in Ha as (_ & _ & Hprice).
  apply Hprice. intros x Hx <-.
  pose proof (same_or_sold_priced _ _
                (run_same_or_sold ops (migrate now empty_database))
                (migrate_priced now)) as Hall.
  rewrite Forall_forall in Hall. by apply Hall.
Qed.

(** ** More than one ticket *)

(** The rows of one attempt share their reference, and [booking_reference]
    is [UNIQUE]: the second insertion of an attempt is always rejected, so a
    call that returns has booked at most one ticket. *)
Lemma createBooking_returns_at_most_one env request d booked c :
  createBooking env request d = (Return booked, c) →
  (length booked ≤ 1)%nat.
Proof.
  intros Hcb.
  apply createBooking_Return in Hcb as (rows & d1 & Hc & -> & _).
  rewrite length_map, (claims_length _ _ _ _ _ _ Hc).
  by eapply claims_at_most_one.
Qed.

Example booking_two_tickets_fails :
  (createBooking sample_env (mkRequest GA 2 "bob") sample_db).1
  = Throw AlreadyBooked.
Proof. by vm_compute. Qed.

(** ** User ids the column does not take as they are *)

Example user_id_with_nul_is_refused :
  (createBooking sample_env (mkRequest GA 1 nul_user_id) sample_db).1
  = Throw (DatabaseError character_not_in_repertoire)
  ∧ durable (createBooking sample_env (mkRequest GA 1 nul_user_id) sample_db).2
    = sample_db.
Proof. by vm_compute. Qed.

Example user_id_too_long_is_refused :
  char_length long_user_id = 256%nat
  ∧ (createBooking sample_env (mkRequest GA 1 long_user_id) sample_db).1
    = Throw (DatabaseError string_data_right_truncation)
  ∧ durable (createBooking sample_env (mkRequest GA 1 long_user_id) sample_db).2
    = sample_db.
Proof. by vm_compute. Qed.

Example user_id_with_spaces_beyond_is_cut :
  char_length padded_user_id = 300%nat
  ∧ map Booking.user_id
      (bookings
         (durable (createBooking sample_env (mkRequest GA 1 padded_user_id)
                                 sample_db).2))
    = ["amy"; "bob" +:+ String.string_of_list_ascii (replicate 252 Ascii.Space)].
Proof. by vm_compute. Qed.

Example characters_are_counted_not_bytes :
  String.length accented_user_id = 400%nat
  ∧ char_length accented_user_id = 200%nat
  ∧ map Booking.user_id
      (bookings
         (durable (createBooking sample_env (mkRequest GA 1 accented_user_id)
                                 sample_db).2))
    = ["amy"; accented_user_id].
Proof. by vm_compute. Qed.

(** * Further properties *)

(** ** The catalogue *)

Global Instance by_tier_id_total : Total by_tier_id.
Proof. intros x y. unfold by_tier_id. lia. Qed.

Global Instance by_tier_id_trans : Transitive by_tier_id.
Proof. intros x y z. unfold by_tier_id. lia. Qed.

(** X1. [getAllAvailableTickets] returns the tickets whose flag is true,
    each of them once and no other, ordered by tier ("Front Row", "GA",
    "VIP") and, within a tier, by id; it leaves the database as it is. *)
Theorem getAllAvailableTickets_catalogue d :
  ∃ ts,
    (getAllAvailableTickets d).1 = Return ts
    ∧ durable (getAllAvailableTickets d).2 = d
    ∧ ts ≡ₚ filter (λ x, Ticket.available x = true) (tickets d)
    ∧ StronglySorted by_tier_id ts
    ∧ ∀ i j x y, ts !! i = Some x → ts !! j = Some y → (i < j)%nat →
        tier_rank (Ticket.tier x) ≤ tier_rank (Ticket.tier y)
        ∧ (Ticket.tier x = Ticket.tier y → Ticket.id x ≤ Ticket.id y).
Proof.
  eexists. split; [reflexivity|]. split; [reflexivity|].
  split; [apply merge_sort_Permutation|].
  assert (StronglySorted by_tier_id
            (merge_sort by_tier_id
               (filter (λ x, Ticket.available x = true) (tickets d)))) as Hs
    by (apply StronglySorted_merge_sort; apply _).
  split; [exact Hs|].
  intros i j x y Hi Hj Hij.
  rewrite <- (take_drop j (merge_sort _ _)) in Hs.
  apply StronglySorted_app in Hs as (Hle & _ & _).
  assert (by_tier_id x y) as Hxy.
  { apply Hle.
    - apply list_elem_of_lookup. exists i. by rewrite lookup_take_lt.
    - apply list_elem_of_lookup. exists 0%nat.
      by rewrite lookup_drop, Nat.add_0_r. }
  unfold by_tier_id in Hxy. split; [lia|]. intros Heq. rewrite Heq in Hxy. lia.
Qed.

Example getAllAvailableTickets_sample :
  map Ticket.id
    (match (getAllAvailableTickets sample_db).1 with
     | Return ts => ts
     | Throw _ => []
     end) = [1; 3; 5; 4].
Proof. by vm_compute. Qed.

(** ** The transaction of one attempt *)

Lemma createBooking_claim_trace env request d r c1 :
  createBooking_claim env request (pool_connect d) = (r, c1) →
  ∃ evs, trace c1 = selection_events request ++ evs
         ∧ Forall (λ ev, is_claim_event ev = true) evs
         ∧ (EvQuery Rollback ∈ evs → ∃ e, r = Throw e).
Proof.
  rewrite createBooking_claim_unfold.
  destruct (select_for_update_skip_locked _ _ _ _) as [ts|e'] eqn:Hsel.
  - destruct (_ <? _).
    + intros [= <- <-]. eexists [_]. split; [done|].
      split; [by repeat constructor|by eexists].
    + intros Hloop. destruct r as [booked|e].
      * apply createBooking_loop_Return in Hloop as (rows & _ & _ & _ & Htr).
        simpl in Htr. rewrite Htr.
        exists (EvReference (bookingReference env)
                :: loop_events request (bookingReference env) ts).
        split; [done|]. split.
        -- constructor; [done|]. unfold loop_events.
           apply Forall_forall. intros ev Hev.
           apply list_elem_of_In, in_flat_map in Hev as (x & _ & [<-|[<-|[]]]);
             done.
        -- intros Hin. apply elem_of_cons in Hin as [[=]|Hin].
           unfold loop_events in Hin.
           apply list_elem_of_In, in_flat_map in Hin
             as (x & _ & [[=]|[[=]|[]]]).
      * eapply createBooking_loop_Throw in Hloop as (_ & _ & evs & Htr & Hevs);
          [|done].
        simpl in Htr. rewrite Htr.
        exists (EvReference (bookingReference env) :: evs).
        split; [done|]. split; [|by eexists].
        constructor; [done|]. eapply Forall_impl; [exact Hevs|].
        intros ev Hev. unfold is_claim_event. by destruct ev.
  - intros [= <- <-]. exists []. rewrite app_nil_r. split; [done|].
    split; [done|]. by eexists.
Qed.

Lemma claim_event_inv ev :
  is_claim_event ev = true →
  ev ≠ EvConnect ∧ ev ≠ EvRelease ∧ ev ≠ EvQuery Commit ∧ ev ≠ EvQuery Begin.
Proof. by destruct ev as [|[]| | |]. Qed.

Lemma createBooking_trace_shape env request d :
  ∃ evs tail,
    trace (createBooking env request d).2
    = selection_events request ++ evs ++ tail ++ [EvRelease]
    ∧ Forall (λ ev, is_claim_event ev = true) evs
    ∧ ((tail = [EvSimulatePayment true;
                EvQuery (UpdateBookingsSuccess (bookingReference env));
                EvQuery Commit]
        ∧ (EvQuery Rollback ∉ evs)
        ∧ ∃ booked, (createBooking env request d).1 = Return booked)
       ∨ ((tail = [EvSimulatePayment false; EvQuery Rollback; EvQuery Rollback]
           ∨ tail = [EvQuery Rollback])
          ∧ ∃ e, (createBooking env request d).1 = Throw e)).
Proof.
  rewrite createBooking_unfold.
  destruct (createBooking_claim _ _ _) as [r c1] eqn:Hclaim.
  apply createBooking_claim_trace in Hclaim as (evs & Htr & Hevs & Hrb).
  exists evs.
  destruct r as [booked|e]; [destruct (paid env)|]; cbn [fst snd trace];
    rewrite Htr, <- !app_assoc.
  - exists [EvSimulatePayment true;
            EvQuery (UpdateBookingsSuccess (bookingReference env));
            EvQuery Commit].
    split; [done|]. split; [done|].
    left. split; [done|]. split; [|by eexists].
    intros Hin. by destruct (Hrb Hin).
  - exists [EvSimulatePayment false; EvQuery Rollback; EvQuery Rollback].
    split; [done|]. split; [done|].
    right. split; [by left|by eexists].
  - exists [EvQuery Rollback].
    split; [done|]. split; [done|].
    right. split; [by right|by eexists].
Qed.

Lemma Forall_not_elem_of {A} (P : A → Prop) (l : list A) (x : A) :
  Forall P l → ¬ P x → x ∉ l.
Proof. intros Hl Hx Hin. rewrite Forall_forall in Hl. by apply Hx, Hl. Qed.

(** X2. Every call of [createBooking], whatever its outcome, opens one
    transaction and leaves none open; it takes one connection, first, and
    releases it once, last; it sends [COMMIT] exactly when it returns, and a
    call that returns has sent no [ROLLBACK]. *)
Theorem createBooking_transaction env request d :
  snapshot (createBooking env request d).2 = None
  ∧ (∃ evs, trace (createBooking env request d).2
            = EvConnect :: (evs ++ [EvRelease])
            ∧ (EvConnect ∉ evs) ∧ (EvRelease ∉ evs))
  ∧ length (filter (λ ev, is_begin ev = true)
                   (trace (createBooking env request d).2)) = 1%nat
  ∧ (EvQuery Commit ∈ trace (createBooking env request d).2
     ↔ ∃ booked, (createBooking env request d).1 = Return booked)
  ∧ ((∃ booked, (createBooking env request d).1 = Return booked) →
     EvQuery Rollback ∉ trace (createBooking env request d).2).
Proof.
  split.
  { rewrite createBooking_unfold.
    destruct (createBooking_claim _ _ _) as [[booked|e] c1];
      [by destruct (paid env)|done]. }
  destruct (createBooking_trace_shape env request d)
    as (evs & tail & Htr & Hevs & Htail).
  rewrite Htr. clear Htr.
  set (quiet := λ ev : Event,
         ev ≠ EvConnect ∧ ev ≠ EvRelease ∧ is_begin ev = false).
  assert (Forall quiet evs) as Hq1.
  { eapply Forall_impl; [exact Hevs|]. intros ev Hev.
    by destruct ev as [|[]| | |]. }
  assert (Forall quiet tail) as Hq2.
  { destruct Htail as [(-> & _)|([->| ->] & _)]; by repeat constructor. }
  assert (Forall (λ ev, ev ≠ EvQuery Commit) evs) as Hc1.
  { eapply Forall_impl; [exact Hevs|]. intros ev Hev.
    by destruct ev as [|[]| | |]. }
  split; [|split; [|split]].
  - exists ([EvQuery SetTransactionIsolationLevelSerializable; EvQuery Begin;
             EvQuery (SelectTicketsForUpdateSkipLocked (req_tier request)
                                                       (req_quantity request))]
            ++ evs ++ tail).
    split; [unfold selection_events; simpl; by rewrite <- !app_assoc|].
    assert (Forall (λ ev, ev ≠ EvConnect ∧ ev ≠ EvRelease)
              ([EvQuery SetTransactionIsolationLevelSerializable; EvQuery Begin;
                EvQuery (SelectTicketsForUpdateSkipLocked (req_tier request)
                           (req_quantity request))] ++ evs ++ tail)) as Hall.
    { apply Forall_app; split; [by repeat constructor|].
      apply Forall_app; split;
        [eapply Forall_impl; [exact Hq1|]|eapply Forall_impl; [exact Hq2|]];
        intros ev Hev; unfold quiet in Hev; tauto. }
    split; eapply Forall_not_elem_of; try exact Hall; by intros [? ?].
  - unfold selection_events. rewrite !filter_app, !length_app.
    assert (∀ l, Forall quiet l →
              length (filter (λ ev, is_begin ev = true) l) = 0%nat) as Hzero.
    { induction 1 as [|ev l (_ & _ & Hev) _ IH]; [done|].
      rewrite filter_cons, decide_False; [done|]. by rewrite Hev. }
    rewrite (Hzero evs Hq1), (Hzero tail Hq2). reflexivity.
  - split.
    + intros Hin. destruct Htail as [(_ & _ & Hret)|(Htail & e & He)]; [done|].
      exfalso. rewrite !elem_of_app in Hin.
      destruct Hin as [Hin|[Hin|[Hin|Hin]]].
      * unfold selection_events in Hin. absurd_event Hin.
      * revert Hin. eapply Forall_not_elem_of; [exact Hc1|].
        intros Hne. by apply Hne.
      * destruct Htail as [-> | ->]; absurd_event Hin.
      * absurd_event Hin.
    + intros [booked Hret].
      destruct Htail as [(-> & _)|(_ & e & He)]; [|congruence].
      rewrite !elem_of_app. right. right. left.
      apply list_elem_of_further, list_elem_of_further, list_elem_of_here.
  - intros [booked Hret].
    destruct Htail as [(-> & Hrb & _)|(_ & e & He)]; [|congruence].
    intros Hin. rewrite !elem_of_app in Hin.
    destruct Hin as [Hin|[Hin|[Hin|Hin]]]; [|done|..].
    + unfold selection_events in Hin. absurd_event Hin.
    + absurd_event Hin.
    + absurd_event Hin.
Qed.

Lemma createBooking_transaction_witness :
  (∃ booked, (createBooking sample_env (mkRequest GA 1 "bob") sample_db).1
             = Return booked)
  ∧ EvQuery Rollback
    ∉ trace (createBooking sample_env (mkRequest GA 1 "bob") sample_db).2.
Proof.
  assert (∃ booked, (createBooking sample_env (mkRequest GA 1 "bob")
                                   sample_db).1 = Return booked) as Hret
    by (eexists; by vm_compute).
  split; [exact Hret|].
  destruct (createBooking_transaction sample_env (mkRequest GA 1 "bob")
                                      sample_db) as (_ & _ & _ & _ & Hnr).
  exact (Hnr Hret).
Defined.

(** ** What a booking that returns has written *)

Lemma claims_rows_selected env request ts d rows d' :
  claims env request ts d rows d' →
  Forall2 (λ t row,
             Booking.ticket_id row = Ticket.id t
             ∧ Booking.user_id row = varchar255 (req_userId request)
             ∧ Booking.quantity row = 1
             ∧ Booking.total_price row = Ticket.price t
             ∧ Booking.payment_status row = pending
             ∧ Booking.booking_reference row = Some (bookingReference env))
          ts rows.
Proof.
  intros Hc. apply claims_rows in Hc.
  eapply Forall2_impl; [exact Hc|]. by intros t row [seq ->].
Qed.

Lemma Forall2_impl_elem_of {A B} (P Q : A → B → Prop) (l : list A) (k : list B) :
  Forall2 P l k → (∀ x y, x ∈ l → P x y → Q x y) → Forall2 Q l k.
Proof.
  induction 1 as [|x y l k Hxy _ IH]; intros Himp; constructor.
  - apply Himp; [left|done].
  - apply IH. intros x' y' Hin. apply Himp. by right.
Qed.

Lemma update_bookings_success_rows reference rows :
  Forall (λ row, Booking.booking_reference row = Some reference) rows →
  map (λ b, if bool_decide (Booking.booking_reference b = Some reference)
            then Booking.set_payment_status success b else b) rows
  = map (Booking.set_payment_status success) rows.
Proof.
  intros Hall. apply map_ext_in. intros b Hb.
  rewrite Forall_forall in Hall. apply list_elem_of_In in Hb.
  by rewrite bool_decide_eq_true_2 by auto.
Qed.

Lemma createBooking_Return_bookings env request d booked c :
  createBooking env request d = (Return booked, c) →
  (∀ b, b ∈ bookings d →
        Booking.booking_reference b = Some (bookingReference env) →
        Booking.payment_status b = success) →
  bookings (durable c) = bookings d ++ booked.
Proof.
  intros Hcb Hold.
  apply createBooking_Return in Hcb as (rows & d1 & Hc & -> & Hsnap & Hdb & _).
  unfold durable. rewrite Hsnap, Hdb. cbn [bookings update_bookings_success].
  rewrite (claims_bookings _ _ _ _ _ _ Hc), map_app. f_equal.
  - rewrite <- (map_id (bookings d)) at 2.
    apply map_ext_in. intros b Hb. apply list_elem_of_In in Hb.
    case_bool_decide; [|done]. apply set_payment_status_success_id. auto.
  - apply update_bookings_success_rows.
    apply claims_rows_selected in Hc.
    apply Forall_forall. intros row Hrow.
    apply list_elem_of_lookup in Hrow as [i Hi].
    by destruct (Forall2_lookup_r _ _ _ _ _ Hc Hi) as (t & _ & _ & _ & _ & _ & _ & ?).
Qed.

(** X3. A call of [createBooking] that returns has booked the tickets it
    selected, in the order of their ids: the reservations returned name
    those tickets one by one, each for the requesting user, for quantity 1,
    at the price of its ticket, with status 'success' and the reference of
    the attempt. (The user id is the one of the request as the column
    [VARCHAR(255)] stores it: unchanged if it has at most 255 characters,
    and cut to its first 255 if it has only spaces beyond them.) If the
    rows that already carry this reference, if any, are confirmed, the
    table of reservations afterwards is the table before followed by the
    reservations returned. *)
Theorem createBooking_books_selected env request d booked c :
  createBooking env request d = (Return booked, c) →
  map Booking.ticket_id booked = map Ticket.id (selected env request d)
  ∧ Forall2 (λ t b,
               Booking.user_id b = varchar255 (req_userId request)
               ∧ ((char_length (req_userId request) ≤ 255)%nat →
                  Booking.user_id b = req_userId request)
               ∧ Booking.quantity b = 1
               ∧ Booking.total_price b = Ticket.price t
               ∧ Booking.payment_status b = success
               ∧ Booking.booking_reference b = Some (bookingReference env)
               ∧ Ticket.tier t = req_tier request
               ∧ t ∈ tickets d)
            (selected env request d) booked
  ∧ ((∀ b, b ∈ bookings d →
           Booking.booking_reference b = Some (bookingReference env) →
           Booking.payment_status b = success) →
     bookings (durable c) = bookings d ++ booked).
Proof.
  intros Hcb. split; [|split].
  - apply createBooking_Return in Hcb as (rows & d1 & Hc & -> & _).
    apply claims_rows_selected in Hc. fold (selected env request d) in Hc.
    induction Hc as [|t row ts rows (Hid & _) _ IH]; [done|].
    simpl. by rewrite Hid, IH.
  - apply createBooking_Return in Hcb as (rows & d1 & Hc & -> & _).
    apply claims_rows_selected in Hc. fold (selected env request d) in Hc.
    assert (∀ t, t ∈ selected env request d →
                 Ticket.tier t = req_tier request ∧ t ∈ tickets d) as Hsel.
    { intros t Ht.
      assert (t ∈ candidates (locked env) (req_tier request) d) as Hcand
        by (eapply elem_of_sublist; [exact Ht|apply sublist_take]).
      apply elem_of_candidates in Hcand as (Hin & Hm & _).
      split; [|done]. unfold matches in Hm.
      apply andb_true_iff in Hm as [Ht' _]. by apply bool_decide_eq_true in Ht'. }
    apply Forall2_fmap_r.
    eapply Forall2_impl_elem_of; [exact Hc|].
    intros t row Ht (_ & Huser & ? & ? & _ & ?).
    destruct (Hsel t Ht) as [? ?]. split; [done|]. split; [|by repeat split].
    intros Hshort. simpl. by rewrite Huser, varchar255_short.
  - intros Hold. by eapply createBooking_Return_bookings.
Qed.

Lemma createBooking_books_selected_witness :
  map Booking.ticket_id
      [Booking.mk 2 1 "bob" 1 (dollars 10) success
                  (Some "BK-1700000000000-abc123xyz") 42]
  = map Ticket.id (selected sample_env (mkRequest GA 1 "bob") sample_db).
Proof.
  apply (createBooking_books_selected sample_env (mkRequest GA 1 "bob")
           sample_db _
           (createBooking sample_env (mkRequest GA 1 "bob") sample_db).2).
  by vm_compute.
Defined.

(** ** The constraints of the schema *)

Lemma ticket_ids_update_ticket_unavailable ticket_id d :
  map Ticket.id (tickets (update_ticket_unavailable ticket_id d))
  = map Ticket.id (tickets d).
Proof.
  simpl. rewrite map_map. apply map_ext. intros x. by case_bool_decide.
Qed.

Lemma schema_ok_insert d row ticket_id :
  schema_ok d →
  violates_unique row (bookings d) = false →
  references_ticket row (tickets d) = true →
  (∃ r, Booking.booking_reference row = Some r) →
  schema_ok (update_ticket_unavailable ticket_id
               (mkDatabase (tickets d) (bookings d ++ [row])
                           (bookings_id_seq d + 1) (tickets_id_seq d))).
Proof.
  intros (Hti & Hbi & Hbt & Hbr & Hfk) Hu Href [r Hr].
  rewrite violates_unique_false in Hu.
  unfold schema_ok. rewrite ticket_ids_update_ticket_unavailable.
  cbn [tickets bookings update_ticket_unavailable].
  assert (omap Booking.booking_reference [row] = [r]) as Hrow
    by (simpl; by rewrite Hr).
  split; [done|]. rewrite !map_app, omap_app, Hrow. cbn [map].
  split; [|split; [|split]].
  - apply NoDup_app. split; [done|]. split; [|apply NoDup_singleton].
    intros i Hi [->|[]%elem_of_nil]%elem_of_cons.
    apply list_elem_of_fmap in Hi as (b & Hbi' & Hb).
    by destruct (Hu b Hb) as (Hn & _).
  - apply NoDup_app. split; [done|]. split; [|apply NoDup_singleton].
    intros i Hi [->|[]%elem_of_nil]%elem_of_cons.
    apply list_elem_of_fmap in Hi as (b & Hbi' & Hb).
    by destruct (Hu b Hb) as (_ & Hn & _).
  - apply NoDup_app. split; [done|]. split; [|apply NoDup_singleton].
    intros r' Hi [->|[]%elem_of_nil]%elem_of_cons.
    apply list_elem_of_omap in Hi as (b & Hb & Hbr').
    destruct (Hu b Hb) as (_ & _ & Hn). by eapply Hn.
  - intros b Hb.
    assert (∃ x, x ∈ tickets d ∧ Ticket.id x = Booking.ticket_id b)
      as (x & Hx & Hid).
    { apply elem_of_app in Hb as [Hb|Hb]; [by apply Hfk|].
      apply list_elem_of_singleton in Hb as ->.
      by apply references_ticket_true. }
    eexists. split; [apply list_elem_of_fmap; by exists x|].
    by case_bool_decide.
Qed.

Lemma claims_schema_ok env request ts d rows d' :
  claims env request ts d rows d' → schema_ok d → schema_ok d'.
Proof.
  induction 1 as [|t rest d row rows d' -> _ _ Hu Hfk _ IH]; [done|].
  intros Hd. apply IH. apply schema_ok_insert; [done..|by eexists].
Qed.

Lemma omap_cons_eq {A B} (f : A → option B) (x : A) (l : list A) :
  omap f (x :: l)
  = match f x with Some y => y :: omap f l | None => omap f l end.
Proof. done. Qed.

Lemma schema_ok_update_bookings_success reference d :
  schema_ok d → schema_ok (update_bookings_success reference d).
Proof.
  intros (Hti & Hbi & Hbt & Hbr & Hfk). unfold schema_ok.
  rewrite ticket_id_update_bookings_success.
  cbn [tickets bookings update_bookings_success].
  assert (map Booking.id
            (map (λ b, if bool_decide (Booking.booking_reference b = Some reference)
                       then Booking.set_payment_status success b else b)
                 (bookings d)) = map Booking.id (bookings d)) as ->.
  { rewrite map_map. apply map_ext. intros b. by case_bool_decide. }
  assert (omap Booking.booking_reference
            (map (λ b, if bool_decide (Booking.booking_reference b = Some reference)
                       then Booking.set_payment_status success b else b)
                 (bookings d)) = omap Booking.booking_reference (bookings d))
    as ->.
  { clear. induction (bookings d) as [|b bs IH]; [done|].
    cbn [map]. rewrite !omap_cons_eq, IH. by case_bool_decide. }
  repeat split; try done.
  intros b' Hb'. apply list_elem_of_fmap in Hb' as (b & -> & Hb).
  destruct (Hfk b Hb) as (x & Hx & Hid). exists x. split; [done|].
  by case_bool_decide.
Qed.

Lemma schema_ok_same_tables d d' :
  same_tables d' d → schema_ok d → schema_ok d'.
Proof. intros [Ht Hb]. unfold schema_ok. by rewrite Ht, Hb. Qed.

Lemma step_schema_ok d op : schema_ok d → schema_ok (step d op).
Proof.
  intros Hd. destruct op as [env request| |]; [|done..]. simpl.
  destruct (createBooking env request d) as [[booked|e] c] eqn:Hcb; simpl.
  - apply createBooking_Return in Hcb as (rows & d1 & Hc & _ & Hsnap & Hdb & _).
    unfold durable. rewrite Hsnap, Hdb.
    apply schema_ok_update_bookings_success. by eapply claims_schema_ok.
  - eapply schema_ok_same_tables; [|done]. by eapply createBooking_Throw.
Qed.

Lemma run_schema_ok d ops : schema_ok d → schema_ok (run ops d).
Proof.
  revert d. induction ops as [|op ops IH]; intros d Hd; [done|].
  apply IH. by apply step_schema_ok.
Qed.

(** X6. The service never breaks the constraints [migrate.ts] declares.
    From a state in which ticket ids, reservation ids, the [ticket_id]s of
    the reservations and their references are each without repetition and
    every reservation names an existing ticket, every sequence of
    operations, with whatever requests, locks and payment outcomes, leads
    to such a state again. *)
Theorem schema_preserved d ops : schema_ok d → schema_ok (run ops d).
Proof. apply run_schema_ok. Qed.

Lemma sample_db_schema_ok : schema_ok sample_db.
Proof.
  unfold schema_ok, sample_db. cbn [tickets bookings map omap].
  split; [apply (bool_decide_unpack _); by vm_compute|].
  split; [apply NoDup_singleton|]. split; [apply NoDup_singleton|].
  split; [apply NoDup_singleton|].
  intros b Hb. apply list_elem_of_singleton in Hb as ->.
  exists (sample_ticket 2 GA false). split; [|done].
  apply list_elem_of_further, list_elem_of_further, list_elem_of_here.
Defined.

Lemma schema_preserved_witness :
  schema_ok (run [OpCreateBooking sample_env (mkRequest GA 1 "bob");
                  OpCreateBooking sample_env_failing (mkRequest GA 1 "cat");
                  OpCreateBooking sample_env (mkRequest VIP 1 "dan")] sample_db).
Proof. apply schema_preserved. exact sample_db_schema_ok. Defined.

(** ** Tickets and reservations agree *)

Lemma createBooking_Return_state env request d booked c :
  createBooking env request d = (Return booked, c) →
  ∃ rows,
    Forall2 (λ t row,
               Booking.ticket_id row = Ticket.id t
               ∧ Booking.booking_reference row = Some (bookingReference env))
            (selected env request d) rows
    ∧ bookings (durable c)
      = map (λ b, if bool_decide (Booking.booking_reference b
                                  = Some (bookingReference env))
                  then Booking.set_payment_status success b else b)
            (bookings d ++ rows)
    ∧ tickets (durable c)
      = map (λ x, if bool_decide
                       (Ticket.id x ∈ map Ticket.id (selected env request d))
                  then Ticket.set_available false x else x) (tickets d).
Proof.
  intros Hcb. pose proof (createBooking_Return_tickets _ _ _ _ _ Hcb) as Htk.
  apply createBooking_Return in Hcb as (rows & d1 & Hc & _ & Hsnap & Hdb & _).
  exists rows. split; [|split; [|exact Htk]].
  - apply claims_rows_selected in Hc.
    eapply Forall2_impl; [exact Hc|]. by intros t row (? & _ & _ & _ & _ & ?).
  - unfold durable. rewrite Hsnap, Hdb. cbn [bookings update_bookings_success].
    by rewrite (claims_bookings _ _ _ _ _ _ Hc).
Qed.

Lemma step_consistent d op : consistent d → consistent (step d op).
Proof.
  intros [Hconf Hagree]. destruct op as [env request| |]; [|done..]. simpl.
  destruct (createBooking env request d) as [[booked|e] c] eqn:Hcb; simpl.
  - apply createBooking_Return_state in Hcb as (rows & Hrows & Hbk & Htk).
    split.
    + intros b' Hb'. rewrite Hbk in Hb'.
      apply list_elem_of_fmap in Hb' as (b & -> & Hb).
      case_bool_decide as Href; [done|].
      apply elem_of_app in Hb as [Hb|Hb]; [by apply Hconf|].
      apply list_elem_of_lookup in Hb as [i Hi].
      by destruct (Forall2_lookup_r _ _ _ _ _ Hrows Hi) as (t & _ & _ & ?).
    + intros x' Hx'. rewrite Htk in Hx'.
      apply list_elem_of_fmap in Hx' as (x & -> & Hx).
      assert (∀ b, Booking.ticket_id
                (if bool_decide (Booking.booking_reference b
                                 = Some (bookingReference env))
                 then Booking.set_payment_status success b else b)
              = Booking.ticket_id b) as Hkeep
        by (intros b; by case_bool_decide).
      assert (Ticket.id
                (if bool_decide
                      (Ticket.id x ∈ map Ticket.id (selected env request d))
                 then Ticket.set_available false x else x) = Ticket.id x)
        as Hidx by (by case_bool_decide).
      rewrite Hidx, Hbk. split.
      * intros Hsold. case_bool_decide as Hin.
        -- apply list_elem_of_fmap in Hin as (t & Hid & Ht).
           apply list_elem_of_lookup in Ht as [i Hi].
           destruct (Forall2_lookup_l _ _ _ _ _ Hrows Hi)
             as (row & Hrow & Hrid & _).
           eexists. split.
           ++ apply list_elem_of_fmap. exists row. split; [done|].
              apply elem_of_app. right. by eapply list_elem_of_lookup_2.
           ++ rewrite Hkeep. congruence.
        -- apply (Hagree x Hx) in Hsold as (b & Hb & Hbid).
           eexists. split.
           ++ apply list_elem_of_fmap. exists b. split; [done|].
              apply elem_of_app. by left.
           ++ by rewrite Hkeep.
      * intros (b' & Hb' & Hbid).
        apply list_elem_of_fmap in Hb' as (b & -> & Hb).
        rewrite Hkeep in Hbid.
        case_bool_decide as Hin; [done|].
        apply elem_of_app in Hb as [Hb|Hb].
        -- apply (Hagree x Hx). by exists b.
        -- destruct Hin. apply list_elem_of_lookup in Hb as [i Hi].
           destruct (Forall2_lookup_r _ _ _ _ _ Hrows Hi) as (t & Ht & Hrid & _).
           apply list_elem_of_fmap. exists t.
           split; [congruence|by eapply list_elem_of_lookup_2].
  - apply createBooking_Throw in Hcb as [Ht Hb].
    unfold consistent. by rewrite Ht, Hb.
Qed.

Lemma run_consistent d ops : consistent d → consistent (run ops d).
Proof.
  revert d. induction ops as [|op ops IH]; intros d Hd; [done|].
  apply IH. by apply step_consistent.
Qed.

(** X7. Tickets and reservations stay in step. If every reservation row is
    confirmed and a ticket is unavailable exactly when a reservation row
    names it, as is the case when nothing has been booked yet, then the same
    holds after any sequence of operations: no pending or failed row is
    ever committed, no ticket is marked sold without a reservation, and no
    reserved ticket is still offered. *)
Theorem consistent_preserved d ops : consistent d → consistent (run ops d).
Proof. apply run_consistent. Qed.

Lemma sample_db_consistent : consistent sample_db.
Proof.
  split.
  - intros b Hb. by apply list_elem_of_singleton in Hb as ->.
  - intros x Hx. unfold sample_db in *. cbn [tickets bookings] in *.
    repeat (apply elem_of_cons in Hx as [->|Hx]);
      [..|by apply elem_of_nil in Hx];
      (split; [intros Hs; try discriminate Hs
              |intros (b & Hb & Hid); apply list_elem_of_singleton in Hb as ->;
               try discriminate Hid; done]).
    eexists. split; [apply list_elem_of_here|done].
Defined.

Lemma consistent_preserved_witness :
  consistent (run [OpCreateBooking sample_env (mkRequest GA 1 "bob");
                   OpCreateBooking sample_env_failing (mkRequest GA 1 "cat");
                   OpGetTicketAvailability] sample_db).
Proof. apply consistent_preserved. exact sample_db_consistent. Defined.

(** ** Rows locked by other transactions *)

Lemma selected_unlocked env request d t :
  t ∈ selected env request d → Ticket.id t ∉ locked env.
Proof.
  intros Ht.
  assert (t ∈ candidates (locked env) (req_tier request) d) as Hcand
    by (eapply elem_of_sublist; [exact Ht|apply sublist_take]).
  apply elem_of_candidates in Hcand as (_ & _ & Hun).
  unfold unlocked in Hun. apply negb_true_iff in Hun.
  by apply bool_decide_eq_false in Hun.
Qed.

(** X8. [createBooking] keeps its hands off what another transaction holds
    locked: whatever the outcome, a ticket row whose id is locked elsewhere
    is afterwards exactly as it was, and no reservation returned names such
    a ticket. *)
Theorem createBooking_skips_locked env request d :
  (∀ k x, tickets d !! k = Some x → Ticket.id x ∈ locked env →
          tickets (durable (createBooking env request d).2) !! k = Some x)
  ∧ (∀ booked b, (createBooking env request d).1 = Return booked →
                 b ∈ booked → Booking.ticket_id b ∉ locked env).
Proof.
  destruct (createBooking env request d) as [[booked|e] c] eqn:Hcb;
    cbn [fst snd].
  - split.
    + apply createBooking_Return_state in Hcb as (rows & Hrows & Hbk & Htk).
      intros k x Hk Hlocked. rewrite Htk, list_lookup_fmap, Hk. simpl.
      case_bool_decide as Hin; [|done].
      apply list_elem_of_fmap in Hin as (t & Hid & Ht).
      apply selected_unlocked in Ht. by rewrite <- Hid in Ht.
    + intros booked' b [= <-] Hb.
      apply createBooking_Return in Hcb as (rows & d1 & Hc & -> & _).
      apply list_elem_of_fmap in Hb as (row & -> & Hrow).
      apply claims_rows_selected in Hc. fold (selected env request d) in Hc.
      apply list_elem_of_lookup in Hrow as [i Hi].
      destruct (Forall2_lookup_r _ _ _ _ _ Hc Hi) as (t & Ht & Hid & _).
      apply list_elem_of_lookup_2, selected_unlocked in Ht.
      simpl. by rewrite Hid.
  - apply createBooking_Throw in Hcb as [Ht _]. rewrite Ht.
    split; [done|]. by intros ? ? [=].
Qed.

Lemma createBooking_skips_locked_witness :
  tickets (durable (createBooking sample_env_failing (mkRequest GA 3 "cat")
                                  sample_db).2) !! 1%nat
  = Some (sample_ticket 1 GA true).
Proof.
  apply (proj1 (createBooking_skips_locked sample_env_failing
                  (mkRequest GA 3 "cat") sample_db)).
  - reflexivity.
  - apply list_elem_of_here.
Defined.

(** ** Two tickets or more *)

(** X9. A request for two or more tickets never succeeds. The rows of one
    attempt share their reference and the column [booking_reference] is
    [UNIQUE], so when at least two tickets are asked for and enough are
    found, and the user id is a text PostgreSQL stores in its column (no
    character U+0000; at most 255 characters, spaces at the end apart), an
    insertion is rejected, the first or else the second: the call throws
    'Ticket was already booked by another user' and both tables are left
    as they were. *)
Theorem createBooking_two_or_more env request d :
  contains_nul (req_userId request) = false →
  fits_varchar255 (req_userId request) = true →
  2 ≤ req_quantity request
    ≤ Z.of_nat (length (filter (λ x, eligible env (req_tier request) x = true)
                               (tickets d))) →
  (createBooking env request d).1 = Throw AlreadyBooked
  ∧ tickets (durable (createBooking env request d).2) = tickets d
  ∧ bookings (durable (createBooking env request d).2) = bookings d.
Proof.
  intros Hnul Hfit [Hq1 Hq2]. rewrite <- length_candidates in Hq2.
  assert ((createBooking env request d).1 = Throw AlreadyBooked) as Hres.
  { rewrite createBooking_unfold, createBooking_claim_unfold.
    unfold select_for_update_skip_locked.
    destruct (Z.ltb_spec (req_quantity request) 0) as [Hneg|Hpos]; [lia|].
    rewrite length_take_le by lia. rewrite Z2Nat.id by lia.
    rewrite Z.ltb_irrefl.
    destruct (Z.to_nat (req_quantity request)) as [|[|n]] eqn:Hn; [lia..|].
    pose proof (λ x, proj1 (elem_of_candidates (locked env) (req_tier request)
                              d x)) as Hcand.
    destruct (candidates _ _ _) as [|t1 [|t2 ts]]; [simpl in Hq2; lia..|].
    cbn [take createBooking_loop]. unfold bind.
    rewrite createBooking_step_unfold. unfold insert_booking.
    rewrite Hnul, Hfit. cbn [negb db].
    destruct (violates_unique _ _) eqn:Hu1; [done|].
    rewrite (proj2 (references_ticket_true _ _)).
    2:{ exists t1. split; [|done]. apply Hcand. left. }
    cbn [negb]. rewrite createBooking_step_unfold. unfold insert_booking.
    rewrite Hnul, Hfit. cbn [negb db bookings update_ticket_unavailable].
    rewrite (violates_unique_reference _ _
               (Booking.mk (bookings_id_seq d + 1) (Ticket.id t1)
                  (varchar255 (req_userId request)) 1 (Ticket.price t1) pending
                  (Some (bookingReference env)) (db_clock env))
               (bookingReference env)); [done| |done..].
    rewrite elem_of_app, list_elem_of_singleton. by right. }
  split; [exact Hres|].
  destruct (createBooking env request d) as [r c] eqn:Hcb. simpl in Hres.
  subst r. by apply createBooking_Throw in Hcb as [? ?].
Qed.

Lemma createBooking_two_or_more_witness :
  (createBooking sample_env (mkRequest GA 2 "bob") sample_db).1
  = Throw AlreadyBooked.
Proof.
  apply (createBooking_two_or_more sample_env (mkRequest GA 2 "bob") sample_db).
  - reflexivity.
  - reflexivity.
  - by vm_compute.
Defined.

(** ** The report before and after a booking *)

Lemma getTicketAvailability_tickets d1 d2 :
  tickets d1 = tickets d2 →
  (getTicketAvailability d1).1 = (getTicketAvailability d2).1.
Proof.
  intros Heq. unfold getTicketAvailability, select_availability_by_tier.
  cbn [fst db record pool_connect]. by rewrite Heq.
Qed.

Section marking.

Context (ids : list Z).

Lemma mark_tier x : Ticket.tier (mark_sold ids x) = Ticket.tier x.
Proof. unfold mark_sold. by case_bool_decide. Qed.

Lemma mark_price x : Ticket.price (mark_sold ids x) = Ticket.price x.
Proof. unfold mark_sold. by case_bool_decide. Qed.

Lemma group_of_mark tier l :
  group_of tier (map (mark_sold ids) l) = map (mark_sold ids) (group_of tier l).
Proof.
  unfold group_of. induction l as [|x l IH]; [done|].
  cbn [map]. rewrite !filter_cons, mark_tier.
  case_decide; cbn [map]; by rewrite IH.
Qed.

Lemma max_price_mark p g :
  foldr (λ y m, Z.max (Ticket.price y) m) p (map (mark_sold ids) g)
  = foldr (λ y m, Z.max (Ticket.price y) m) p g.
Proof. induction g as [|y g IH]; [done|]. simpl. by rewrite IH, mark_price. Qed.

Lemma available_mark_count g :
  (length (filter (λ x, Ticket.available x = true) (map (mark_sold ids) g))
   + length (filter (λ x, Ticket.available x = true ∧ Ticket.id x ∈ ids) g)
   = length (filter (λ x, Ticket.available x = true) g))%nat.
Proof.
  induction g as [|x g IH]; [done|].
  cbn [map]. rewrite !filter_cons.
  destruct (decide (Ticket.id x ∈ ids)) as [Hin|Hin];
    destruct (Ticket.available x) eqn:Hx.
  - assert (Ticket.available (mark_sold ids x) = false) as Hm
      by (unfold mark_sold; by rewrite bool_decide_eq_true_2).
    rewrite Hm, decide_False, decide_True, decide_True by intuition congruence.
    cbn [length]. lia.
  - assert (Ticket.available (mark_sold ids x) = false) as Hm
      by (unfold mark_sold; by rewrite bool_decide_eq_true_2).
    rewrite Hm, decide_False, decide_False, decide_False by intuition congruence.
    exact IH.
  - assert (mark_sold ids x = x) as Hm
      by (unfold mark_sold; by rewrite bool_decide_eq_false_2).
    rewrite Hm, Hx, decide_True, decide_False, decide_True by intuition congruence.
    cbn [length]. lia.
  - assert (mark_sold ids x = x) as Hm
      by (unfold mark_sold; by rewrite bool_decide_eq_false_2).
    rewrite Hm, Hx, decide_False, decide_False, decide_False
      by intuition congruence.
    exact IH.
Qed.

Lemma group_row_mark tier l :
  group_row tier (map (mark_sold ids) l)
  = (λ row, mkAvailabilityRow (row_tier row) (row_total row)
              (sum_available (map (mark_sold ids) (group_of tier l))) (row_price row))
    <$> group_row tier l.
Proof.
  unfold group_row. rewrite group_of_mark.
  destruct (group_of tier l) as [|x g]; [done|].
  cbn [map fmap option_fmap option_map row_tier row_total row_price].
  by rewrite !length_cons, length_map, max_price_mark, mark_price.
Qed.

End marking.

Lemma NoDup_fmap_inj {A B} (f : A → B) (l : list A) (x y : A) :
  NoDup (map f l) → x ∈ l → y ∈ l → f x = f y → x = y.
Proof.
  intros Hnd Hx Hy Heq.
  apply list_elem_of_lookup in Hx as [i Hi].
  apply list_elem_of_lookup in Hy as [j Hj].
  assert (i = j) as ->; [|congruence].
  eapply NoDup_lookup; [exact Hnd|..].
  - by rewrite list_lookup_fmap, Hi.
  - by rewrite list_lookup_fmap, Hj, Heq.
Qed.

Lemma selected_inv env request d t :
  t ∈ selected env request d →
  t ∈ tickets d ∧ Ticket.tier t = req_tier request
  ∧ Ticket.available t = true.
Proof.
  intros Ht.
  assert (t ∈ candidates (locked env) (req_tier request) d) as Hcand
    by (eapply elem_of_sublist; [exact Ht|apply sublist_take]).
  apply elem_of_candidates in Hcand as (Hin & Hm & _).
  unfold matches in Hm. apply andb_true_iff in Hm as [Htier Hav].
  by apply bool_decide_eq_true in Htier.
Qed.

Lemma selected_NoDup env request d :
  NoDup (map Ticket.id (tickets d)) → NoDup (selected env request d).
Proof.
  intros Hnd. apply NoDup_fmap_1 in Hnd.
  eapply sublist_NoDup; [|apply sublist_take].
  rewrite candidates_Permutation. by apply NoDup_filter.
Qed.

Lemma sold_in_group env request d tier :
  NoDup (map Ticket.id (tickets d)) →
  length (filter (λ x, Ticket.available x = true
                       ∧ Ticket.id x ∈ map Ticket.id (selected env request d))
                 (group_of tier (tickets d)))
  = if bool_decide (tier = req_tier request)
    then length (selected env request d) else 0%nat.
Proof.
  intros Hnd.
  assert (∀ x, x ∈ filter (λ x, Ticket.available x = true
                  ∧ Ticket.id x ∈ map Ticket.id (selected env request d))
                 (group_of tier (tickets d)) →
               x ∈ selected env request d ∧ tier = req_tier request) as Hin.
  { intros x Hx. apply list_elem_of_filter in Hx as [[Hav Hid] Hx].
    unfold group_of in Hx. apply list_elem_of_filter in Hx as [Htier Hx].
    apply list_elem_of_fmap in Hid as (t & Hid & Ht).
    destruct (selected_inv _ _ _ _ Ht) as (Htin & Htt & _).
    assert (x = t) as -> by (by eapply (NoDup_fmap_inj Ticket.id)).
    split; [done|congruence]. }
  case_bool_decide as Htier.
  - apply Permutation_length, NoDup_Permutation.
    + apply NoDup_filter, NoDup_filter. by apply NoDup_fmap_1 in Hnd.
    + by apply selected_NoDup.
    + intros x. split; [by intros [? _]%Hin|]. intros Hx.
      destruct (selected_inv _ _ _ _ Hx) as (Hxin & Hxt & Hxa).
      apply list_elem_of_filter. split.
      * split; [done|]. apply list_elem_of_fmap. by exists x.
      * apply list_elem_of_filter. split; [congruence|done].
  - destruct (filter _ _) as [|x rest] eqn:Hf; [done|].
    destruct (Hin x) as [_ ?]; [left|done].
Qed.

(** X4. What a booking does to the report. When ticket ids are unique, as
    the primary key demands, and [createBooking] returns, the report taken
    afterwards differs from the one taken before in one number only:
    [available] of the requested tier has gone down by the number of
    reservations returned. The other tiers, every [total] and every [price]
    are as they were. *)
Theorem report_after_booking env request d booked c a a' :
  NoDup (map Ticket.id (tickets d)) →
  createBooking env request d = (Return booked, c) →
  (getTicketAvailability d).1 = Return a →
  (getTicketAvailability (durable c)).1 = Return a' →
  ∀ tier,
    ta_total (report a' tier) = ta_total (report a tier)
    ∧ ta_price (report a' tier) = ta_price (report a tier)
    ∧ ta_available (report a' tier)
      = ta_available (report a tier)
        - (if bool_decide (tier = req_tier request)
           then Z.of_nat (length booked) else 0).
Proof.
  intros Hnd Hcb Ha Ha' tier.
  assert (length booked = length (selected env request d)) as Hlen.
  { pose proof Hcb as Hr.
    apply createBooking_Return in Hr as (rows & d1 & Hc & -> & _).
    by rewrite length_map, (claims_length _ _ _ _ _ _ Hc). }
  apply createBooking_Return_state in Hcb as (rows & _ & _ & Htk).
  destruct (getTicketAvailability_Return d) as (a0 & Heq & Hrep).
  rewrite Heq in Ha. injection Ha as ->.
  destruct (getTicketAvailability_Return (durable c)) as (a1 & Heq' & Hrep').
  rewrite Heq' in Ha'. injection Ha' as ->.
  rewrite Hrep, Hrep', Htk.
  change (map _ (tickets d))
    with (map (mark_sold (map Ticket.id (selected env request d))) (tickets d)).
  rewrite group_row_mark.
  pose proof (available_mark_count (map Ticket.id (selected env request d))
                (group_of tier (tickets d))) as Hcount.
  rewrite (sold_in_group _ _ _ _ Hnd) in Hcount.
  unfold group_row.
  destruct (group_of tier (tickets d)) as [|x g] eqn:Hg.
  - cbn [fmap option_fmap option_map default from_option id].
    split; [done|]. split; [done|].
    simpl in Hcount. destruct (bool_decide (tier = req_tier request)); lia.
  - cbn [fmap option_fmap option_map default from_option id entry_of_row
         ta_available ta_total ta_price row_available row_total row_price
         row_tier].
    split; [done|]. split; [done|].
    rewrite !sum_available_filter.
    destruct (bool_decide (tier = req_tier request)); lia.
Qed.

Lemma report_after_booking_witness :
  ta_available (av_GA (mkAvailability (mkTierAvailability 1 1 (dollars 100))
                         (mkTierAvailability 0 0 (dollars 50))
                         (mkTierAvailability 2 4 (dollars 10))))
  = ta_available (av_GA (mkAvailability (mkTierAvailability 1 1 (dollars 100))
                           (mkTierAvailability 0 0 (dollars 50))
                           (mkTierAvailability 3 4 (dollars 10))))
    - Z.of_nat 1.
Proof.
  apply (report_after_booking sample_env (mkRequest GA 1 "bob") sample_db
           [Booking.mk 2 1 "bob" 1 (dollars 10) success
                       (Some "BK-1700000000000-abc123xyz") 42]
           (createBooking sample_env (mkRequest GA 1 "bob") sample_db).2
           _ _ (proj1 sample_db_schema_ok) ltac:(by vm_compute)
           ltac:(by vm_compute) ltac:(by vm_compute) GA).
Defined.

(** X5. What a failed booking does to the report: nothing. When
    [createBooking] throws, for whatever reason, the report taken afterwards
    is the report taken before. *)
Theorem report_after_failure env request d e c :
  createBooking env request d = (Throw e, c) →
  (getTicketAvailability (durable c)).1 = (getTicketAvailability d).1.
Proof.
  intros Hcb. apply getTicketAvailability_tickets.
  by apply createBooking_Throw in Hcb as [? _].
Qed.

Lemma report_after_failure_witness :
  (getTicketAvailability
     (durable (createBooking sample_env_failing (mkRequest GA 1 "cat")
                             sample_db).2)).1
  = (getTicketAvailability sample_db).1.
Proof.
  apply (report_after_failure sample_env_failing (mkRequest GA 1 "cat")
           sample_db PaymentFailed).
  by vm_compute.
Defined.

(** ** The migration *)

(** X10. [migrate] is safe to run again. It leaves a store that already has
    tickets exactly as it is, and so running it a second time, at whatever
    later moment, changes nothing: no ticket is added twice and no sale is
    undone. *)
Theorem migrate_idempotent now now' d :
  (tickets d ≠ [] → migrate now d = d)
  ∧ migrate now' (migrate now d) = migrate now d.
Proof.
  split.
  - unfold migrate. by destruct (tickets d).
  - unfold migrate at 2 3. destruct (tickets d) as [|x l] eqn:Hd.
    + reflexivity.
    + unfold migrate. by rewrite Hd.
Qed.

Lemma migrate_idempotent_witness :
  migrate 7 sample_db = sample_db.
Proof.
  apply (proj1 (migrate_idempotent 7 7 sample_db)). discriminate.
Defined.

Lemma migrate_fresh_tickets now d :
  tickets d = [] →
  migrate now d
  = mkDatabase
      (imap (λ i tier, Ticket.mk (tickets_id_seq d + Z.of_nat i + 1) tier
                                 (tier_price tier) true now)
            allTickets)
      (bookings d) (bookings_id_seq d)
      (tickets_id_seq d + Z.of_nat (length allTickets)).
Proof. unfold migrate. by intros ->. Qed.

Lemma length_filter_tier tier (l : list Ticket.t) :
  length (filter (λ x, Ticket.tier x = tier) l)
  = length (filter (λ t, t = tier) (map Ticket.tier l)).
Proof.
  induction l as [|x l IH]; [done|]. cbn [map]. rewrite !filter_cons.
  case_decide; simpl; by rewrite IH.
Qed.

(** X11. What [migrate] loads into a store without tickets: 100 VIP, 200
    Front Row and 1000 GA tickets, in this order, each available, each at
    the price of its tier (100, 50, 10) and stamped with the time of the
    migration. Their ids are the next 1300 values of the sequence behind
    [tickets.id], which moves on by 1300: on a store in which the sequence
    was never used these are 1 to 1300. Reservations and their sequence
    are not touched. *)
Theorem migrate_inventory now d :
  tickets d = [] →
  map Ticket.id (tickets (migrate now d)) = seqZ (tickets_id_seq d + 1) 1300
  ∧ (tickets_id_seq d = 0 →
     map Ticket.id (tickets (migrate now d)) = seqZ 1 1300)
  ∧ tickets_id_seq (migrate now d) = tickets_id_seq d + 1300
  ∧ map Ticket.tier (tickets (migrate now d))
    = replicate 100 VIP ++ replicate 200 FrontRow ++ replicate 1000 GA
  ∧ (∀ tier,
       length (filter (λ x, Ticket.tier x = tier) (tickets (migrate now d)))
       = tier_count tier)
  ∧ Forall (λ x, Ticket.available x = true
                 ∧ Ticket.price x = tier_price (Ticket.tier x)
                 ∧ Ticket.created_at x = now) (tickets (migrate now d))
  ∧ bookings (migrate now d) = bookings d
  ∧ bookings_id_seq (migrate now d) = bookings_id_seq d.
Proof.
  intros Hd. rewrite (migrate_fresh_tickets _ _ Hd). cbn [tickets bookings
    bookings_id_seq tickets_id_seq].
  assert (map Ticket.tier
            (imap (λ i tier, Ticket.mk (tickets_id_seq d + Z.of_nat i + 1) tier
                               (tier_price tier) true now) allTickets)
          = allTickets) as Htiers.
  { change (map Ticket.tier ?l) with (Ticket.tier <$> l).
    rewrite fmap_imap. rewrite <- (list_fmap_id allTickets) at 2.
    rewrite <- imap_const. by apply imap_ext. }
  assert (map Ticket.id
            (imap (λ i tier, Ticket.mk (tickets_id_seq d + Z.of_nat i + 1) tier
                               (tier_price tier) true now) allTickets)
          = seqZ (tickets_id_seq d + 1) 1300) as Hids.
  { change (map Ticket.id ?l) with (Ticket.id <$> l). rewrite fmap_imap.
    unfold seqZ.
    change (Z.to_nat 1300) with (length allTickets).
    rewrite <- (imap_seq_0 allTickets (λ i, Z.of_nat i + (tickets_id_seq d + 1))).
    apply imap_ext. intros i tier _. cbn [Ticket.id compose]. lia. }
  split; [exact Hids|]. split; [by intros Hs; rewrite Hids, Hs|].
  split; [done|]. split; [exact Htiers|]. split; [|split; [|done]].
  - intros tier.
    rewrite length_filter_tier, Htiers. by destruct tier; vm_compute.
  - apply Forall_forall. intros x Hx.
    by apply elem_of_lookup_imap_1 in Hx as (i & tier & -> & _).
Qed.

Lemma migrate_inventory_witness :
  tickets empty_database = []
  ∧ map Ticket.id (tickets (migrate 7 empty_database)) = seqZ 1 1300.
Proof.
  split; [reflexivity|].
  apply (proj1 (proj2 (migrate_inventory 7 empty_database eq_refl))).
  reflexivity.
Defined.

(** A table emptied by hand keeps its sequence. *)
Example migrate_after_delete :
  map Ticket.id (take 3 (tickets (migrate 7 (mkDatabase [] [] 0 1300))))
  = [1301; 1302; 1303].
Proof. reflexivity. Qed.

Lemma migrate_bookings now : bookings (migrate now empty_database) = [].
Proof. reflexivity. Qed.

Lemma migrate_schema_ok now : schema_ok (migrate now empty_database).
Proof.
  unfold schema_ok. rewrite migrate_tickets, migrate_bookings.
  split; [|split; [apply NoDup_nil; done|]].
  - change (map Ticket.id ?l) with (Ticket.id <$> l).
    rewrite fmap_imap.
    rewrite (imap_ext _ (λ i _, (λ j : nat, Z.of_nat j + 1) i) allTickets)
      by done.
    rewrite imap_seq_0. apply NoDup_fmap_2; [|apply NoDup_seq].
    intros i j Hij. lia.
  - split; [apply NoDup_nil; done|]. split; [apply NoDup_nil; done|].
    intros b Hb. by apply elem_of_nil in Hb.
Qed.

Lemma migrate_consistent now : consistent (migrate now empty_database).
Proof.
  unfold consistent. rewrite migrate_bookings. split.
  - intros b Hb. by apply elem_of_nil in Hb.
  - intros x Hx. rewrite migrate_tickets in Hx.
    apply elem_of_lookup_imap_1 in Hx as (i & tier & -> & _).
    split; [done|]. intros (b & Hb & _). by apply elem_of_nil in Hb.
Qed.

(** X12. From the migrated store onwards the books are always in order.
    After the migration of an empty database, and after any sequence of
    operations that follows, the constraints of the schema hold, every
    reservation row is confirmed, a ticket is unavailable exactly when a
    reservation names it, there are still 1300 tickets, and each carries
    the price of its tier. *)
Theorem reachable_states_in_order now ops :
  schema_ok (run ops (migrate now empty_database))
  ∧ consistent (run ops (migrate now empty_database))
  ∧ length (tickets (run ops (migrate now empty_database))) = 1300%nat
  ∧ Forall priced (tickets (run ops (migrate now empty_database))).
Proof.
  split; [apply run_schema_ok, migrate_schema_ok|].
  split; [apply run_consistent, migrate_consistent|].
  pose proof (run_same_or_sold ops (migrate now empty_database)) as Hrun.
  split.
  - rewrite <- (Forall2_length _ _ _ Hrun), migrate_tickets, length_imap.
    by vm_compute.
  - eapply same_or_sold_priced; [exact Hrun|apply migrate_priced].
Qed.

(** ** The error for too few tickets *)

Lemma createBooking_insufficient_inv env request d r f :
  (createBooking env request d).1 = Throw (InsufficientTickets r f) →
  r = req_quantity request
  ∧ f = Z.of_nat (length (filter (λ x, eligible env (req_tier request) x = true)
                                 (tickets d)))
  ∧ f < r.
Proof.
  rewrite createBooking_unfold, createBooking_claim_unfold.
  unfold select_for_update_skip_locked. rewrite <- length_candidates.
  destruct (Z.ltb_spec (req_quantity request) 0) as [Hneg|Hpos]; [done|].
  destruct (Z.ltb_spec
              (Z.of_nat (length (take (Z.to_nat (req_quantity request))
                 (candidates (locked env) (req_tier request) d))))
              (req_quantity request)) as [Hlt|Hge].
  - cbn [fst]. intros [= <- <-]. rewrite length_take in *. lia.
  - destruct (createBooking_loop _ _ _ _ _ _) as [[booked|e] c1] eqn:Hloop.
    + by destruct (paid env).
    + eapply createBooking_loop_Throw in Hloop as (_ & He & _); [|done].
      cbn [fst]. intros [= ->]. by destruct He as [[? _]|(? & ? & _)].
Qed.

(** X13. 'Insufficient tickets' is thrown only when there really are too
    few: if [createBooking] throws this error, the quantity it carries is
    the one requested, the number found is the number of tickets of the
    tier that are available and unlocked, and that number is smaller than
    the quantity. *)
Theorem createBooking_insufficient_only_when_short env request d r f :
  (createBooking env request d).1 = Throw (InsufficientTickets r f) →
  r = req_quantity request
  ∧ f = Z.of_nat (length (filter (λ x, eligible env (req_tier request) x = true)
                                 (tickets d)))
  ∧ f < r.
Proof. apply createBooking_insufficient_inv. Qed.

Lemma createBooking_insufficient_only_when_short_witness :
  (4 : Z) = req_quantity (mkRequest GA 4 "bob")
  ∧ (3 : Z) = Z.of_nat (length (filter (λ x, eligible sample_env GA x = true)
                                       (tickets sample_db)))
  ∧ (3 : Z) < 4.
Proof.
  apply (createBooking_insufficient_only_when_short sample_env
           (mkRequest GA 4 "bob") sample_db 4 3).
  by vm_compute.
Defined.

(** ** The answers of the POST handler *)

(** Membership in an explicit list that holds the element sought. *)
Ltac in_explicit_list :=
  repeat first [apply list_elem_of_here | apply list_elem_of_further].

Lemma safeParse_bounds req_body request :
  safeParse req_body = Some request →
  1 ≤ req_quantity request ≤ 100 ∧ req_userId request ≠ EmptyString.
Proof.
  unfold safeParse. destruct req_body as [| | | | |fields]; try done.
  destruct (parse_tier _) as [tier|]; [|done].
  destruct (parse_quantity _) as [n|] eqn:Hq; [|done].
  destruct (parse_userId _) as [s|] eqn:Hu; [|done].
  intros [= <-]. simpl. split.
  - unfold parse_quantity in Hq.
    destruct (field "quantity" fields) as [[| |[q|]| | |]|]; try done.
    destruct (is_integer q); [|done].
    destruct (Z.leb_spec 1 (Qnum (Qred q))); [|done].
    destruct (Z.leb_spec (Qnum (Qred q)) 100); [|done].
    simpl in Hq. injection Hq as <-. lia.
  - unfold parse_userId in Hu.
    destruct (field "userId" fields) as [[| | |s'| |]|]; try done.
    destruct s'; [done|]. by injection Hu as <-.
Qed.

(** X14. What the answers of [POST /api/bookings] mean. The status is one of
    201, 400, 402, 409 and 500. A 201 is given only for a booking that was
    committed: it carries as many reservations as the request asked for,
    each with status 'success', and that number is 1, since the second
    insertion of an attempt is always rejected. Every other status leaves
    both tables as they were. *)
Theorem post_bookings_answers env req_body d :
  status (post_bookings env req_body d).1.1 ∈ [201; 400; 402; 409; 500]
  ∧ (status (post_bookings env req_body d).1.1 = 201 →
     ∃ request booked,
       safeParse req_body = Some request
       ∧ body (post_bookings env req_body d).1.1 = Booked booked
       ∧ Z.of_nat (length booked) = req_quantity request
       ∧ req_quantity request = 1
       ∧ Forall (λ b, Booking.payment_status b = success) booked
       ∧ EvQuery Commit ∈ (post_bookings env req_body d).2)
  ∧ (status (post_bookings env req_body d).1.1 ≠ 201 →
     tickets (post_bookings env req_body d).1.2 = tickets d
     ∧ bookings (post_bookings env req_body d).1.2 = bookings d
     ∧ EvQuery Commit ∉ (post_bookings env req_body d).2).
Proof.
  unfold post_bookings.
  destruct (safeParse req_body) as [request|] eqn:Hparse; cbn [fst snd].
  2:{ split; [in_explicit_list|]. split; [done|]. intros _.
      split; [done|]. split; [done|]. apply not_elem_of_nil. }
  pose proof (createBooking_trace_shape env request d)
    as (evs & tail & Htr & Hevs & Htail).
  destruct (createBooking env request d) as [[booked|e] c] eqn:Hcb;
    cbn [fst snd status body] in *.
  - split; [in_explicit_list|]. split; [|done]. intros _.
    exists request, booked. split; [done|]. split; [done|].
    pose proof (createBooking_returns_at_most_one _ _ _ _ _ Hcb) as Hone.
    pose proof Hcb as Hr.
    apply createBooking_Return in Hr as (rows & d1 & Hc & -> & _ & _ & _ & Hlen).
    rewrite length_map in *. split; [done|].
    split; [apply safeParse_bounds in Hparse as [? _]; lia|]. split.
    + apply Forall_forall. intros b Hb.
      by apply list_elem_of_fmap in Hb as (row & -> & _).
    + destruct Htail as [(-> & _)|(_ & e & [=])]. rewrite Htr.
      rewrite !elem_of_app. right. right. left.
      apply list_elem_of_further, list_elem_of_further, list_elem_of_here.
  - assert (EvQuery Commit ∉ trace c) as Hnc.
    { destruct Htail as [(_ & _ & ? & [=])|(Htail & _)].
      rewrite Htr. intros Hin. rewrite !elem_of_app in Hin.
      destruct Hin as [Hin|[Hin|[Hin|Hin]]].
      - unfold selection_events in Hin. absurd_event Hin.
      - rewrite Forall_forall in Hevs. apply Hevs in Hin. done.
      - destruct Htail as [-> | ->]; absurd_event Hin.
      - absurd_event Hin. }
    apply createBooking_Throw in Hcb as [Ht Hb].
    destruct e; cbn [error_response status]; (split; [in_explicit_list|]);
      (split; [done|]); by intros _.
Qed.

Lemma post_bookings_answers_witness :
  status (post_bookings sample_env_failing
            (JObject [("tier", JString "GA");
                      ("quantity", JNumber (Finite (1 # 1)));
                      ("userId", JString "cat")]) sample_db).1.1 ≠ 201
  ∧ tickets (post_bookings sample_env_failing
               (JObject [("tier", JString "GA");
                         ("quantity", JNumber (Finite (1 # 1)));
                         ("userId", JString "cat")]) sample_db).1.2
    = tickets sample_db.
Proof.
  assert (status (post_bookings sample_env_failing
                    (JObject [("tier", JString "GA");
                              ("quantity", JNumber (Finite (1 # 1)));
                              ("userId", JString "cat")]) sample_db).1.1 ≠ 201)
    as Hne by (by vm_compute).
  split; [exact Hne|].
  destruct (post_bookings_answers sample_env_failing
              (JObject [("tier", JString "GA");
                        ("quantity", JNumber (Finite (1 # 1)));
                        ("userId", JString "cat")]) sample_db)
    as (_ & _ & Hother).
  by destruct (Hother Hne) as (? & _).
Defined.

(** ** The request on its way to the server *)

Lemma Qred_inject_Z n : Qred (inject_Z n) = inject_Z n.
Proof.
  unfold Qred, inject_Z.
  pose proof (Z.ggcd_gcd n 1) as Hg.
  pose proof (Z.ggcd_correct_divisors n 1) as Hd.
  destruct (Z.ggcd n 1) as [g [aa bb]]. simpl in *.
  rewrite Z.gcd_1_r in Hg. subst g. destruct Hd as [-> Hbb].
  rewrite !Z.mul_1_l in *. by rewrite <- Hbb.
Qed.

Lemma parse_tier_name tier :
  parse_tier (Some (JString (tier_name tier))) = Some tier.
Proof. by destruct tier. Qed.

Lemma parse_quantity_inject_Z n :
  parse_quantity (Some (JNumber (Finite (inject_Z n))))
  = if bool_decide (1 ≤ n ≤ 100) then Some n else None.
Proof.
  unfold parse_quantity, is_integer. rewrite Qred_inject_Z. simpl.
  destruct (Z.leb_spec 1 n), (Z.leb_spec n 100); simpl;
    case_bool_decide; first [done|lia].
Qed.

Lemma safeParse_request_body request :
  safeParse (request_body request)
  = if bool_decide (1 ≤ req_quantity request ≤ 100)
    then match req_userId request with
         | EmptyString => None
         | String _ _ => Some request
         end
    else None.
Proof.
  unfold safeParse, request_body.
  assert (∀ a b c, field "tier" [("tier", a); ("quantity", b); ("userId", c)]
                   = Some a) as -> by done.
  assert (∀ a b c, field "quantity" [("tier", a); ("quantity", b); ("userId", c)]
                   = Some b) as -> by done.
  assert (∀ a b c, field "userId" [("tier", a); ("quantity", b); ("userId", c)]
                   = Some c) as -> by done.
  rewrite parse_tier_name, parse_quantity_inject_Z.
  case_bool_decide; [|done]. destruct request as [tier q [|a s]]; done.
Qed.

(** X15. A request survives the way from the client to the server exactly
    when the server accepts it. What [api.ts] sends for a request is read
    back by the schema of the route as that same request if the quantity is
    from 1 to 100 and the user id is not empty, and is refused otherwise;
    it is never read back as a different request. *)
Theorem request_round_trip request :
  (1 ≤ req_quantity request ≤ 100 → req_userId request ≠ EmptyString →
   safeParse (request_body request) = Some request)
  ∧ (¬ (1 ≤ req_quantity request ≤ 100 ∧ req_userId request ≠ EmptyString) →
     safeParse (request_body request) = None)
  ∧ (∀ request', safeParse (request_body request) = Some request' →
                 request' = request).
Proof.
  rewrite safeParse_request_body. split; [|split].
  - intros Hq Hu. rewrite bool_decide_eq_true_2 by done.
    by destruct (req_userId request).
  - intros Hn. case_bool_decide; [|done].
    destruct (req_userId request) eqn:Hu; [done|].
    destruct Hn. by split.
  - intros request'. case_bool_decide; [|done].
    destruct (req_userId request); [done|]. by intros [= <-].
Qed.

Lemma request_round_trip_witness :
  safeParse (request_body (mkRequest VIP 100 "bob"))
  = Some (mkRequest VIP 100 "bob")
  ∧ safeParse (request_body (mkRequest VIP 101 "bob")) = None.
Proof.
  split.
  - apply (proj1 (request_round_trip (mkRequest VIP 100 "bob"))); [|done].
    simpl. lia.
  - apply (proj1 (proj2 (request_round_trip (mkRequest VIP 101 "bob")))).
    simpl. lia.
Defined.

(** ** The booking form *)

Lemma handleSubmit_submitted env availability userId st d :
  1 ≤ form_quantity st
    ≤ ta_available (report availability (selectedTier st)) →
  handleSubmit env availability userId st d =
  match safeParse (request_body (mkRequest (selectedTier st) (form_quantity st)
                                           userId)) with
  | None =>
      (OnErrorMessage InvalidRequest,
       mkFormState (selectedTier st) (form_quantity st) false, d, [])
  | Some request =>
      match createBooking env request d with
      | (Return booked, c) =>
          (OnBookingSuccess (Z.of_nat (length booked)) (selectedTier st)
             (ta_price (report availability (selectedTier st))
              * form_quantity st),
           mkFormState (selectedTier st) 1 false, durable c, trace c)
      | (Throw e, c) =>
          (OnErrorMessage (body (error_response e)),
           mkFormState (selectedTier st) (form_quantity st) false,
           durable c, trace c)
      end
  end.
Proof.
  intros [Hq1 Hq2]. unfold handleSubmit.
  destruct (Z.ltb_spec (ta_available (report availability (selectedTier st)))
                       (form_quantity st)); [lia|].
  destruct (Z.ltb_spec (form_quantity st) 1); [lia|].
  unfold api_createBooking, app_post_bookings, request_body.
  cbn [express_json]. unfold post_bookings.
  destruct (safeParse _) as [request|]; [|done].
  destruct (createBooking env request d) as [[booked|e] c]; [done|].
  by destruct e.
Qed.

Lemma handleSubmit_refused env availability userId st d :
  ¬ (1 ≤ form_quantity st
       ≤ ta_available (report availability (selectedTier st))) →
  ∃ callback,
    handleSubmit env availability userId st d = (callback, st, d, [])
    ∧ (callback
       = OnErrorOnlyAvailable
           (ta_available (report availability (selectedTier st)))
           (selectedTier st)
       ∨ callback = OnErrorQuantityAtLeastOne).
Proof.
  intros Hn. unfold handleSubmit.
  destruct (Z.ltb_spec (ta_available (report availability (selectedTier st)))
                       (form_quantity st)); [by eexists; split; [|left]|].
  destruct (Z.ltb_spec (form_quantity st) 1); [by eexists; split; [|right]|].
  lia.
Qed.

(** X16. The form does not bother the server with a request it can see is
    hopeless. If the quantity is not between 1 and the number of tickets
    its availability data shows for the selected tier (so, for a tier shown
    as sold out, whatever the quantity) [handleSubmit] reports one of its
    two own errors, leaves its state alone and sends nothing: the database
    is untouched. *)
Theorem handleSubmit_guard env availability userId st d :
  ¬ (1 ≤ form_quantity st
       ≤ ta_available (report availability (selectedTier st))) →
  ∃ callback,
    handleSubmit env availability userId st d = (callback, st, d, [])
    ∧ (callback
       = OnErrorOnlyAvailable
           (ta_available (report availability (selectedTier st)))
           (selectedTier st)
       ∨ callback = OnErrorQuantityAtLeastOne).
Proof. apply handleSubmit_refused. Qed.

Lemma handleSubmit_guard_witness :
  ∃ callback,
    handleSubmit sample_env
      (mkAvailability (mkTierAvailability 0 100 (dollars 100))
                      (mkTierAvailability 5 200 (dollars 50))
                      (mkTierAvailability 9 1000 (dollars 10)))
      "bob" (mkFormState VIP 1 false) sample_db
    = (callback, mkFormState VIP 1 false, sample_db, [])
    ∧ (callback = OnErrorOnlyAvailable 0 VIP
       ∨ callback = OnErrorQuantityAtLeastOne).
Proof.
  apply (handleSubmit_guard sample_env
           (mkAvailability (mkTierAvailability 0 100 (dollars 100))
                           (mkTierAvailability 5 200 (dollars 50))
                           (mkTierAvailability 9 1000 (dollars 10)))
           "bob" (mkFormState VIP 1 false) sample_db).
  simpl. lia.
Defined.

(** X17. The form and the server disagree about large orders. The form
    lets through any quantity up to the number of tickets shown as
    available; the server refuses more than 100 in one request. A
    submission of more than 100 tickets that passes the form's own check
    is therefore answered 'Invalid request': the form reports the error,
    and nothing is booked. *)
Theorem handleSubmit_ceiling env availability userId st d :
  100 < form_quantity st
    ≤ ta_available (report availability (selectedTier st)) →
  handleSubmit env availability userId st d
  = (OnErrorMessage InvalidRequest,
     mkFormState (selectedTier st) (form_quantity st) false, d, []).
Proof.
  intros [Hq1 Hq2]. rewrite handleSubmit_submitted by lia.
  rewrite safeParse_request_body. cbn [req_quantity].
  rewrite bool_decide_eq_false_2 by lia. done.
Qed.

Lemma handleSubmit_ceiling_witness :
  handleSubmit sample_env
    (mkAvailability (mkTierAvailability 100 100 (dollars 100))
                    (mkTierAvailability 200 200 (dollars 50))
                    (mkTierAvailability 1000 1000 (dollars 10)))
    "bob" (mkFormState GA 150 false) (migrate 0 empty_database)
  = (OnErrorMessage InvalidRequest, mkFormState GA 150 false,
     migrate 0 empty_database, []).
Proof.
  apply (handleSubmit_ceiling sample_env
           (mkAvailability (mkTierAvailability 100 100 (dollars 100))
                           (mkTierAvailability 200 200 (dollars 50))
                           (mkTierAvailability 1000 1000 (dollars 10)))
           "bob" (mkFormState GA 150 false) (migrate 0 empty_database)).
  simpl. lia.
Defined.

(** X18. With fresh data the form's check is enough. If the availability
    the form holds is the report of the current state of the server and no
    ticket is locked by another transaction, a submission is never
    answered 'Insufficient tickets', whatever the tier, the quantity and
    the user id. *)
Theorem handleSubmit_fresh env userId st d a :
  (getTicketAvailability d).1 = Return a →
  locked env = [] →
  ∀ r f, (handleSubmit env a userId st d).1.1.1
         ≠ OnErrorMessage (ErrorMessage (InsufficientTickets r f)).
Proof.
  intros Ha Hlocked r f.
  destruct (decide (1 ≤ form_quantity st
                      ≤ ta_available (report a (selectedTier st))))
    as [Hq|Hq].
  2:{ destruct (handleSubmit_refused env a userId st d Hq) as (cb & -> & [->| ->]);
        done. }
  rewrite (handleSubmit_submitted _ _ _ _ _ Hq).
  destruct (safeParse _) as [request|] eqn:Hparse; [|done].
  rewrite safeParse_request_body in Hparse. cbn [req_quantity req_userId] in Hparse.
  case_bool_decide; [|done]. destruct userId as [|ch userId]; [done|].
  injection Hparse as <-.
  destruct (createBooking env _ d) as [[booked|e] c] eqn:Hcb; [done|].
  cbn [fst]. destruct e; try done. cbn [error_response body].
  intros [= -> ->].
  assert ((createBooking env
             (mkRequest (selectedTier st) (form_quantity st) (String ch userId))
             d).1 = Throw (InsufficientTickets r f)) as Hins by (by rewrite Hcb).
  apply createBooking_insufficient_inv in Hins as (-> & -> & Hlt).
  cbn [req_quantity req_tier] in Hlt.
  destruct (report_entry d a (selectedTier st) Ha) as (Hav & _).
  assert (filter (λ x, eligible env (selectedTier st) x = true) (tickets d)
          = filter (λ x, Ticket.tier x = selectedTier st
                         ∧ Ticket.available x = true) (tickets d)) as Heq.
  { apply list_filter_iff. intros x. unfold eligible, matches, unlocked.
    rewrite Hlocked, !andb_true_iff, negb_true_iff, bool_decide_eq_true,
      bool_decide_eq_false.
    split; [tauto|]. intros [? ?]. repeat split; try done.
    apply not_elem_of_nil. }
  rewrite Heq in Hlt. lia.
Qed.

Lemma handleSubmit_fresh_witness :
  (handleSubmit sample_env
     (mkAvailability (mkTierAvailability 1 1 (dollars 100))
                     (mkTierAvailability 0 0 (dollars 50))
                     (mkTierAvailability 3 4 (dollars 10)))
     "bob" (mkFormState GA 3 false) sample_db).1.1.1
  ≠ OnErrorMessage (ErrorMessage (InsufficientTickets 3 3)).
Proof.
  apply (handleSubmit_fresh sample_env "bob" (mkFormState GA 3 false) sample_db).
  - by vm_compute.
  - reflexivity.
Defined.

(** X19. The form announces a success only for a booking that was made.
    When [handleSubmit] calls [onBookingSuccess], the count in the message
    is the quantity asked for, which is 1 (an attempt for more is always
    refused by the server) and no more than the form's availability data
    shows; the total is the unit price times that quantity; the server has
    committed its transaction; and the form is back at quantity 1, no
    longer loading. *)
Theorem handleSubmit_success env availability userId st d count tier total :
  (handleSubmit env availability userId st d).1.1.1
  = OnBookingSuccess count tier total →
  count = form_quantity st
  ∧ tier = selectedTier st
  ∧ total = ta_price (report availability (selectedTier st)) * form_quantity st
  ∧ form_quantity st = 1
  ∧ form_quantity st ≤ ta_available (report availability (selectedTier st))
  ∧ (handleSubmit env availability userId st d).1.1.2
    = mkFormState (selectedTier st) 1 false
  ∧ EvQuery Commit ∈ (handleSubmit env availability userId st d).2.
Proof.
  destruct (decide (1 ≤ form_quantity st
                      ≤ ta_available (report availability (selectedTier st))))
    as [Hq|Hq].
  2:{ destruct (handleSubmit_refused env availability userId st d Hq)
        as (cb & -> & [->| ->]); done. }
  rewrite (handleSubmit_submitted _ _ _ _ _ Hq).
  destruct (safeParse _) as [request|] eqn:Hparse; [|done].
  pose proof (safeParse_bounds _ _ Hparse) as [Hbounds _].
  rewrite safeParse_request_body in Hparse. cbn [req_quantity req_userId] in Hparse.
  case_bool_decide; [|done]. destruct userId as [|ch userId]; [done|].
  injection Hparse as <-. cbn [req_quantity] in Hbounds.
  pose proof (createBooking_trace_shape env
                (mkRequest (selectedTier st) (form_quantity st)
                           (String ch userId)) d)
    as (evs & tail & Htr & _ & Htail).
  destruct (createBooking env _ d) as [[booked|e] c] eqn:Hcb; [|done].
  cbn [fst snd] in *. intros [= <- <- <-].
  pose proof (createBooking_returns_at_most_one _ _ _ _ _ Hcb) as Hone.
  apply createBooking_Return in Hcb as (rows & d1 & Hc & -> & _ & _ & _ & Hlen).
  rewrite length_map in *. cbn [req_quantity] in Hlen.
  repeat split; try done; try lia.
  destruct Htail as [(-> & _)|(_ & e & [=])]. rewrite Htr.
  rewrite !elem_of_app. right. right. left.
  apply list_elem_of_further, list_elem_of_further, list_elem_of_here.
Qed.

Lemma handleSubmit_success_witness :
  (1 : Z) = form_quantity (mkFormState GA 1 false)
  ∧ GA = selectedTier (mkFormState GA 1 false)
  ∧ dollars 10 = dollars 10 * form_quantity (mkFormState GA 1 false).
Proof.
  destruct (handleSubmit_success sample_env
              (mkAvailability (mkTierAvailability 1 1 (dollars 100))
                              (mkTierAvailability 0 0 (dollars 50))
                              (mkTierAvailability 3 4 (dollars 10)))
              "bob" (mkFormState GA 1 false) sample_db 1 GA (dollars 10))
    as (H1 & H2 & H3 & _); [by vm_compute|].
  exact (conj H1 (conj H2 H3)).
Defined.
